(** * Chat-history normalisation of [ChatCompletionClientBase]

    A shallow embedding of
    [python/semantic_kernel/connectors/ai/chat_completion_client_base.py]:
    the method [_prepare_chat_history_for_request], which turns a chat
    history into the list of dictionaries sent to a provider, and the
    default of [get_chat_message_content_class].

    The definitions come first, in three groups.
    - Python values, exceptions and dictionaries, and the method over
      values: a history is a list of messages, a dictionary a finite map.
    - [Store]: the same method over a store of mutable objects, where the
      history, the messages, their metadata dictionaries and the
      dictionaries built by the method are separate cells; it is used for
      the statements about mutation and repeated calls.
    - [Client]: classes, method resolution and the default method.
    The theorems follow: facts about [model_dump], the loop body and the
    loop, the statements about the records, the frame and refinement
    results for the store, and the default method. *)

From stdpp Require Import base option list strings gmap fin_maps fin_sets.

Set Warnings "-register-all,-clear-no-such-hyp".
Open Scope string_scope.

(** ** Python values, exceptions and dictionary primitives *)

(** [ChatRole] of [semantic_kernel.contents.chat_role]. *)
Inductive ChatRole := SYSTEM | USER | ASSISTANT | TOOL.

Global Instance ChatRole_eq_dec : EqDecision ChatRole.
Proof. solve_decision. Defined.

(** The values that occur in a message and in a dumped dictionary. *)
Inductive Value :=
  | VNone
  | VStr (s : string)
  | VInt (z : Z)
  | VRole (r : ChatRole)
  | VDict (d : gmap string Value).

(** Exceptions the method can raise. *)
Inductive PyError :=
  | KeyError (key : string)
  | TypeError
  | AttributeError (name : string).

Inductive result (A : Type) :=
  | Ok (a : A)
  | Raise (e : PyError).
Arguments Ok {A} a.
Arguments Raise {A} e.

(** Sequencing: an exception aborts what follows.  With these instances
    stdpp's [x ← r; k] reads as Python's statement sequence. *)
Global Instance result_ret : MRet result := λ A a, Ok a.
Global Instance result_bind : MBind result := λ A B k r,
  match r with
  | Ok a => k a
  | Raise e => Raise e
  end.

Definition is_None (v : Value) : bool :=
  match v with VNone => true | _ => false end.

(** [d[k]]: a missing key raises [KeyError]. *)
Definition py_getitem {V} (d : gmap string V) (k : string) : result V :=
  match d !! k with
  | Some v => Ok v
  | None => Raise (KeyError k)
  end.

(** [k in d]. *)
Definition py_contains {V} (k : string) (d : gmap string V) : bool :=
  bool_decide (is_Some (d !! k)).

(** [d[k] = v]. *)
Definition py_setitem {V} (d : gmap string V) (k : string) (v : V) : gmap string V :=
  <[k := v]> d.

(** [d.pop(k, None)], keeping the dictionary only. *)
Definition py_pop {V} (d : gmap string V) (k : string) : gmap string V :=
  delete k d.

(** [v] used as a dictionary ([v[k]], [k in v]); anything but a [dict]
    is a [TypeError]. *)
Definition as_dict (v : Value) : result (gmap string Value) :=
  match v with
  | VDict d => Ok d
  | _ => Raise TypeError
  end.

(** ** Messages and histories *)

(** Modelled from the spec: the class [ChatMessageContent] is declared in
    [semantic_kernel.contents], outside the file at hand.  Its attributes
    are those of the data model: [role] is required, every other attribute
    is optional, with [VNone]/[None] for an absent one; [metadata], when
    present, is a dictionary from strings to values. *)
Record ChatMessageContent := {
  role : ChatRole;
  content : option string;
  ai_model_id : option string;
  inner_content : Value;
  encoding : option string;
  choice_index : option Z;
  metadata : option (gmap string Value);
}.

Record ChatHistory := { messages : list ChatMessageContent }.

Definition of_option {A} (f : A → Value) (o : option A) : Value :=
  match o with
  | Some a => f a
  | None => VNone
  end.

(** The fields of a message with their Python names, as [model_dump]
    walks them. *)
Definition model_fields (message : ChatMessageContent) : list (string * Value) :=
  [ ("inner_content", inner_content message);
    ("ai_model_id", of_option VStr (ai_model_id message));
    ("metadata", of_option VDict (metadata message));
    ("role", VRole (role message));
    ("content", of_option VStr (content message));
    ("encoding", of_option VStr (encoding message));
    ("choice_index", of_option VInt (choice_index message)) ].

(** pydantic's [model_dump(exclude_none=..., exclude=[...])]: a new
    dictionary with an entry for every field that is not named in
    [exclude] and, under [exclude_none], whose value is not [None].  A
    dictionary-valued field is dumped with the entries it has. *)
Definition dumped (exclude_none : bool) (exclude : list string)
    (field : string * Value) : bool :=
  bool_decide (field.1 ∉ exclude) && negb (exclude_none && is_None field.2).

Definition model_dump (exclude_none : bool) (exclude : list string)
    (message : ChatMessageContent) : gmap string Value :=
  list_to_map (filter (λ field, dumped exclude_none exclude field = true)
                      (model_fields message)).

(** ** The method *)

(** The body of the [for] loop, up to the [append]: the dictionary built
    for one message. *)
Definition prepare_message (message : ChatMessageContent)
    : result (gmap string Value) :=
  if decide (role message = TOOL) then
    let dump := model_dump true ["encoding"] message in
    if py_contains "metadata" dump then
      md ← py_getitem dump "metadata" ≫= as_dict;
      if py_contains "tool_call_id" md then
        md ← py_getitem dump "metadata" ≫= as_dict;
        v ← py_getitem md "tool_call_id";
        let dump := py_setitem dump "tool_call_id" v in
        md ← py_getitem dump "metadata" ≫= as_dict;
        v ← py_getitem md "function_name";
        let dump := py_setitem dump "name" v in
        let dump := py_pop dump "metadata" in
        Ok dump
      else Ok dump
    else Ok dump
  else
    Ok (model_dump true
          ["metadata"; "encoding"; "ai_model_id"; "inner_content"; "choice_index"]
          message).

(** The loop over [chat_history.messages], appending to
    [prepared_messages]. *)
Fixpoint prepare_loop (msgs : list ChatMessageContent)
    (prepared_messages : list (gmap string Value))
    : result (list (gmap string Value)) :=
  match msgs with
  | [] => Ok prepared_messages
  | message :: rest =>
      dump ← prepare_message message;
      prepare_loop rest (prepared_messages ++ [dump])
  end.

Definition _prepare_chat_history_for_request (chat_history : ChatHistory)
    : result (list (gmap string Value)) :=
  prepare_loop (messages chat_history) [].

(** A message on which the loop body raises: a tool message whose
    metadata names the call but not the function. *)
Definition well_keyed (message : ChatMessageContent) : bool :=
  match role message, metadata message with
  | TOOL, Some md =>
      negb (py_contains "tool_call_id" md) || py_contains "function_name" md
  | _, _ => true
  end.

(** The messages of the examples. *)
Definition plain (r : ChatRole) (text : string) : ChatMessageContent :=
  {| role := r; content := Some text; ai_model_id := None;
     inner_content := VNone; encoding := None; choice_index := None;
     metadata := None |}.

Definition tool_message (text : string) (md : option (gmap string Value))
    : ChatMessageContent :=
  {| role := TOOL; content := Some text; ai_model_id := None;
     inner_content := VNone; encoding := None; choice_index := None;
     metadata := md |}.

Definition tool_42 : ChatMessageContent :=
  tool_message "42"
    (Some {[ "tool_call_id" := VStr "call_1"; "function_name" := VStr "add" ]}).

Definition tool_no_function_name : ChatMessageContent :=
  tool_message "42" (Some {[ "tool_call_id" := VStr "call_1" ]}).

Definition tool_no_call_id : ChatMessageContent :=
  tool_message "42" (Some {[ "function_name" := VStr "add" ]}).

(** An assistant message with every optional attribute set. *)
Definition assistant_full : ChatMessageContent :=
  {| role := ASSISTANT; content := Some "4"; ai_model_id := Some "gpt";
     inner_content := VStr "raw"; encoding := Some "utf-8";
     choice_index := Some 0%Z;
     metadata := Some {[ "tool_call_id" := VStr "call_1" ]} |}.

(** ** The method over a store of objects

    Python passes objects by reference.  Here the history, its list of
    messages, every message, every metadata dictionary and every dictionary
    the method builds is a cell of a store; [model_dump] allocates the
    dictionary it returns and a copy of the metadata dictionary it
    serialises, and [dump[k] = v], [dump.pop] and [append] update cells in
    place. *)
Module Store.

Definition loc := positive.

(** What a dictionary built by [model_dump] holds under a key: a value, or
    a reference to a dictionary object. *)
Inductive slot :=
  | Imm (v : Value)
  | Ref (l : loc).

(** A [ChatMessageContent] instance; its [metadata] attribute refers to a
    dictionary object. *)
Record MessageObject := {
  o_role : ChatRole;
  o_content : option string;
  o_ai_model_id : option string;
  o_inner_content : Value;
  o_encoding : option string;
  o_choice_index : option Z;
  o_metadata : option loc;
}.

Inductive object :=
  | OHistory (msgs : loc)               (* a ChatHistory: its [messages] attribute *)
  | OList (items : list loc)            (* a list of objects *)
  | OMessage (m : MessageObject)
  | ODict (d : gmap string Value)       (* a [Dict[str, Any]] *)
  | ODump (d : gmap string slot).       (* a dictionary built by [model_dump] *)

Abbreviation store := (gmap loc object).

(** Computations: a store in, a result or an exception and a store out. *)
Definition M (A : Type) : Type := store → result A * store.

Global Instance M_ret : MRet M := λ A a σ, (Ok a, σ).
Global Instance M_bind : MBind M := λ A B k c σ,
  match c σ with
  | (Ok a, σ') => k a σ'
  | (Raise e, σ') => (Raise e, σ')
  end.

Definition raise {A} (e : PyError) : M A := λ σ, (Raise e, σ).

Definition lift {A} (r : result A) : M A := λ σ, (r, σ).

Definition alloc (o : object) : M loc := λ σ,
  let l := fresh (dom σ) in (Ok l, <[l := o]> σ).

Definition load (l : loc) : M object := λ σ,
  match σ !! l with
  | Some o => (Ok o, σ)
  | None => (Raise TypeError, σ)
  end.

Definition write (l : loc) (o : object) : M unit := λ σ, (Ok (), <[l := o]> σ).

Definition load_history (l : loc) : M loc :=
  o ← load l; match o with OHistory msgs => mret msgs | _ => raise TypeError end.

Definition load_list (l : loc) : M (list loc) :=
  o ← load l; match o with OList items => mret items | _ => raise TypeError end.

Definition load_message (l : loc) : M MessageObject :=
  o ← load l; match o with OMessage m => mret m | _ => raise TypeError end.

Definition load_dict (l : loc) : M (gmap string Value) :=
  o ← load l; match o with ODict d => mret d | _ => raise TypeError end.

Definition load_dump (l : loc) : M (gmap string slot) :=
  o ← load l; match o with ODump d => mret d | _ => raise TypeError end.

(** [prepared_messages.append(dump)]. *)
Definition list_append (l : loc) (x : loc) : M unit :=
  items ← load_list l; write l (OList (items ++ [x])).

(** *** [model_dump] *)

Definition of_option {A} (f : A → Value) (o : option A) : slot :=
  match o with
  | Some a => Imm (f a)
  | None => Imm VNone
  end.

Definition model_fields (m : MessageObject) : list (string * slot) :=
  [ ("inner_content", Imm (o_inner_content m));
    ("ai_model_id", of_option VStr (o_ai_model_id m));
    ("metadata", match o_metadata m with Some l => Ref l | None => Imm VNone end);
    ("role", Imm (VRole (o_role m)));
    ("content", of_option VStr (o_content m));
    ("encoding", of_option VStr (o_encoding m));
    ("choice_index", of_option VInt (o_choice_index m)) ].

Definition slot_is_None (s : slot) : bool :=
  match s with
  | Imm v => is_None v
  | Ref _ => false
  end.

Definition dumped (exclude_none : bool) (exclude : list string)
    (field : string * slot) : bool :=
  bool_decide (field.1 ∉ exclude) && negb (exclude_none && slot_is_None field.2).

(** Serialising a field that is dumped: a dictionary is copied to a new
    object. *)
Definition serialize (field : string * slot) : M (string * slot) :=
  match field.2 with
  | Imm v => mret (field.1, Imm v)
  | Ref l => d ← load_dict l; l' ← alloc (ODict d); mret (field.1, Ref l')
  end.

Definition model_dump (exclude_none : bool) (exclude : list string)
    (message : loc) : M loc :=
  m ← load_message message;
  entries ← mapM serialize
    (filter (λ field, dumped exclude_none exclude field = true) (model_fields m));
  alloc (ODump (list_to_map entries)).

(** *** Dictionary operations on references *)

(** [k in dump]. *)
Definition dump_contains (k : string) (dump : loc) : M bool :=
  d ← load_dump dump; mret (py_contains k d).

(** [dump[k]]. *)
Definition dump_getitem (dump : loc) (k : string) : M slot :=
  d ← load_dump dump; lift (py_getitem d k).

(** [dump[k] = s]. *)
Definition dump_setitem (dump : loc) (k : string) (s : slot) : M unit :=
  d ← load_dump dump; write dump (ODump (py_setitem d k s)).

(** [dump.pop(k, None)]. *)
Definition dump_pop (dump : loc) (k : string) : M unit :=
  d ← load_dump dump; write dump (ODump (py_pop d k)).

(** [k in s] and [s[k]] for what [dump["metadata"]] evaluates to. *)
Definition slot_contains (k : string) (s : slot) : M bool :=
  match s with
  | Imm v => d ← lift (as_dict v); mret (py_contains k d)
  | Ref l => d ← load_dict l; mret (py_contains k d)
  end.

Definition slot_getitem (s : slot) (k : string) : M slot :=
  match s with
  | Imm v => d ← lift (as_dict v); v ← lift (py_getitem d k); mret (Imm v)
  | Ref l => d ← load_dict l; v ← lift (py_getitem d k); mret (Imm v)
  end.

(** *** The method *)

Definition prepare_message (message : loc) : M loc :=
  m ← load_message message;
  if decide (o_role m = TOOL) then
    dump ← model_dump true ["encoding"] message;
    has_metadata ← dump_contains "metadata" dump;
    if has_metadata : bool then
      md ← dump_getitem dump "metadata";
      has_id ← slot_contains "tool_call_id" md;
      if has_id : bool then
        md ← dump_getitem dump "metadata";
        v ← slot_getitem md "tool_call_id";
        dump_setitem dump "tool_call_id" v;;
        md ← dump_getitem dump "metadata";
        v ← slot_getitem md "function_name";
        dump_setitem dump "name" v;;
        dump_pop dump "metadata";;
        mret dump
      else mret dump
    else mret dump
  else
    model_dump true
      ["metadata"; "encoding"; "ai_model_id"; "inner_content"; "choice_index"]
      message.

Fixpoint prepare_loop (msgs : list loc) (prepared_messages : loc) : M unit :=
  match msgs with
  | [] => mret ()
  | message :: rest =>
      dump ← prepare_message message;
      list_append prepared_messages dump;;
      prepare_loop rest prepared_messages
  end.

Definition _prepare_chat_history_for_request (chat_history : loc) : M loc :=
  prepared_messages ← alloc (OList []);
  msgs ← load_history chat_history ≫= load_list;
  prepare_loop msgs prepared_messages;;
  mret prepared_messages.

(** *** Reading the store back as values *)

Definition read_slot (σ : store) (s : slot) : Value :=
  match s with
  | Imm v => v
  | Ref l => match σ !! l with Some (ODict d) => VDict d | _ => VNone end
  end.

Definition read_record (σ : store) (l : loc) : option (gmap string Value) :=
  match σ !! l with
  | Some (ODump d) => Some (read_slot σ <$> d)
  | _ => None
  end.

Definition read_records (σ : store) (l : loc)
    : option (list (gmap string Value)) :=
  match σ !! l with
  | Some (OList items) => mapM (read_record σ) items
  | _ => None
  end.

Definition read_metadata (σ : store) (o : option loc)
    : option (option (gmap string Value)) :=
  match o with
  | None => Some None
  | Some l => match σ !! l with Some (ODict d) => Some (Some d) | _ => None end
  end.

Definition read_message (σ : store) (l : loc) : option ChatMessageContent :=
  match σ !! l with
  | Some (OMessage m) =>
      md ← read_metadata σ (o_metadata m);
      Some {| role := o_role m; content := o_content m;
              ai_model_id := o_ai_model_id m;
              inner_content := o_inner_content m;
              encoding := o_encoding m; choice_index := o_choice_index m;
              metadata := md |}
  | _ => None
  end.

Definition read_history (σ : store) (l : loc) : option ChatHistory :=
  match σ !! l with
  | Some (OHistory lm) =>
      match σ !! lm with
      | Some (OList items) =>
          msgs ← mapM (read_message σ) items; Some {| messages := msgs |}
      | _ => None
      end
  | _ => None
  end.

(** What a call leaves behind, as values: the records, or the exception. *)
Definition outcome (run : result loc * store)
    : result (list (gmap string Value)) :=
  match run with
  | (Ok l, σ) =>
      match read_records σ l with
      | Some rs => Ok rs
      | None => Raise TypeError
      end
  | (Raise e, _) => Raise e
  end.

(** *** What a computation may change

    [preserves σ0 c Q]: run from a store that extends [σ0], the
    computation [c] leaves every cell of [σ0] as it is, whether it returns
    or raises, and what it returns satisfies [Q]. *)
Definition preserves {A} (σ0 : store) (c : M A) (Q : A → Prop) : Prop :=
  ∀ σ, σ0 ⊆ σ → σ0 ⊆ (c σ).2 ∧ ∀ a, (c σ).1 = Ok a → Q a.

(** *** Well-formed records

    A reference held by a dictionary is valid when it leads to a
    dictionary object; [record_at σ l r] says that the cell [l] holds a
    dictionary built by [model_dump], with valid references, that reads as
    [r]. *)
Definition slot_valid (σ : store) (s : slot) : Prop :=
  match s with
  | Imm _ => True
  | Ref l => ∃ d, σ !! l = Some (ODict d)
  end.

Definition record_at (σ : store) (l : loc) (r : gmap string Value) : Prop :=
  ∃ d, σ !! l = Some (ODump d) ∧
       map_Forall (λ _ s, slot_valid σ s) d ∧
       read_slot σ <$> d = r.

Definition records_at (σ : store) (l : loc) (rs : list (gmap string Value))
    : Prop :=
  ∃ items, σ !! l = Some (OList items) ∧ Forall2 (record_at σ) items rs.

(** A store for the examples: a history of a user message and a tool
    message whose metadata names the call and the function. *)
Definition example_store : store :=
  {[ 1%positive := OHistory 2%positive;
     2%positive := OList [3; 4]%positive;
     3%positive := OMessage {| o_role := USER; o_content := Some "2+2?";
                      o_ai_model_id := None; o_inner_content := VNone;
                      o_encoding := None; o_choice_index := None;
                      o_metadata := None |};
     4%positive := OMessage {| o_role := TOOL; o_content := Some "42";
                      o_ai_model_id := None; o_inner_content := VNone;
                      o_encoding := None; o_choice_index := None;
                      o_metadata := Some 5%positive |};
     5%positive := ODict {[ "tool_call_id" := VStr "call_1";
                   "function_name" := VStr "add" ]} ]}.

End Store.

(** ** The client class and its default method

    [ChatCompletionClientBase] declares two abstract coroutines and one
    concrete method, [get_chat_message_content_class].  A call on an
    instance is resolved along the method resolution order of the
    instance's class: the first class that defines the name wins. *)
Module Client.

(** The classes a client can name as its message type:
    [ChatMessageContent] itself or a subclass of it. *)
Inductive ContentClass :=
  | ChatMessageContent
  | Subclass (name : string).

(** A method of one argument, [self], given the attributes of [self]. *)
Definition Method := gmap string Value → ContentClass.

Record PyClass := {
  class_name : string;
  methods : gmap string Method;
}.

(** Lines 17-19 of the source: the body returns [ChatMessageContent]. *)
Definition get_chat_message_content_class : Method :=
  λ self, ChatMessageContent.

Definition ChatCompletionClientBase : PyClass :=
  {| class_name := "ChatCompletionClientBase";
     methods := {[ "get_chat_message_content_class"
                   := get_chat_message_content_class ]} |}.

(** An instance: the resolution order of its class, most derived first,
    and its attributes. *)
Record Instance := {
  mro : list PyClass;
  attributes : gmap string Value;
}.

Fixpoint resolve (name : string) (classes : list PyClass) : option Method :=
  match classes with
  | [] => None
  | c :: rest =>
      match methods c !! name with
      | Some f => Some f
      | None => resolve name rest
      end
  end.

(** [self.get_chat_message_content_class()]. *)
Definition call_get_chat_message_content_class (self : Instance)
    : result ContentClass :=
  match resolve "get_chat_message_content_class" (mro self) with
  | Some f => Ok (f (attributes self))
  | None => Raise (AttributeError "get_chat_message_content_class")
  end.

(** Two connectors for the examples: one that inherits the method, one
    that overrides it. *)
Definition AIServiceClientBase : PyClass :=
  {| class_name := "AIServiceClientBase"; methods := ∅ |}.

Definition PlainConnector : PyClass :=
  {| class_name := "PlainConnector"; methods := ∅ |}.

Definition EnrichedConnector : PyClass :=
  {| class_name := "EnrichedConnector";
     methods := {[ "get_chat_message_content_class"
                   := λ self, Subclass "OpenAIChatMessageContent" ]} |}.

Definition plain_client : Instance :=
  {| mro := [PlainConnector; ChatCompletionClientBase; AIServiceClientBase];
     attributes := {[ "ai_model_id" := VStr "gpt" ]} |}.

Definition enriched_client : Instance :=
  {| mro := [EnrichedConnector; ChatCompletionClientBase; AIServiceClientBase];
     attributes := {[ "ai_model_id" := VStr "gpt" ]} |}.

End Client.

(** ** Further messages and stores for the examples *)

(** [message] with its metadata replaced. *)
Definition with_metadata (message : ChatMessageContent)
    (md : option (gmap string Value)) : ChatMessageContent :=
  {| role := role message; content := content message;
     ai_model_id := ai_model_id message;
     inner_content := inner_content message;
     encoding := encoding message; choice_index := choice_index message;
     metadata := md |}.

(** A tool message whose [tool_call_id] is present and [None]. *)
Definition tool_none_call_id : ChatMessageContent :=
  tool_message "42"
    (Some {[ "tool_call_id" := VNone; "function_name" := VStr "add" ]}).

(** A tool message with every optional attribute set. *)
Definition tool_full : ChatMessageContent :=
  {| role := TOOL; content := Some "42"; ai_model_id := Some "gpt";
     inner_content := VStr "raw"; encoding := Some "utf-8";
     choice_index := Some 0%Z;
     metadata := Some {[ "tool_call_id" := VStr "call_1";
                         "function_name" := VStr "add";
                         "latency" := VInt 12 ]} |}.

(** A store whose history holds a tool message without [function_name]:
    the method raises on it. *)
Definition raising_store : Store.store :=
  {[ 1%positive := Store.OHistory 2%positive;
     2%positive := Store.OList [3%positive];
     3%positive := Store.OMessage
       {| Store.o_role := TOOL; Store.o_content := Some "42";
          Store.o_ai_model_id := None; Store.o_inner_content := VNone;
          Store.o_encoding := None; Store.o_choice_index := None;
          Store.o_metadata := Some 4%positive |};
     4%positive := Store.ODict {[ "tool_call_id" := VStr "call_1" ]} ]}.

(** ** Facts about [model_dump] *)

Section model_dump_facts.
Implicit Types (message : ChatMessageContent) (k : string) (v : Value).

Lemma model_fields_keys message :
  (model_fields message).*1 =
    ["inner_content"; "ai_model_id"; "metadata"; "role"; "content";
     "encoding"; "choice_index"].
Proof. reflexivity. Qed.

Lemma model_fields_NoDup message : NoDup (model_fields message).*1.
Proof.
  rewrite model_fields_keys.
  repeat (apply NoDup_cons; split; [set_solver|]). apply NoDup_nil_2.
Qed.

(** The entries of a dump are the fields that pass the filter. *)
Lemma model_dump_lookup_Some en ex message k v :
  model_dump en ex message !! k = Some v ↔
    ((k, v) ∈ model_fields message ∧ (k ∉ ex) ∧ (en = true → v ≠ VNone)).
Proof.
  unfold model_dump. rewrite <- elem_of_list_to_map.
  - rewrite list_elem_of_filter. unfold dumped; simpl.
    rewrite andb_true_iff, bool_decide_eq_true, negb_true_iff.
    split.
    + intros [[Hex Hn] Hin]. split_and!; [done..|].
      intros -> ->. simpl in Hn. discriminate.
    + intros (Hin & Hex & Hn). split_and!; [done| |done].
      destruct en; [|done]. destruct v; try done. by destruct Hn.
  - eapply sublist_NoDup; [apply (model_fields_NoDup message)|].
    apply fmap_sublist, sublist_filter.
Qed.

Lemma model_dump_excluded en ex message k :
  k ∈ ex → model_dump en ex message !! k = None.
Proof.
  intros Hk. apply eq_None_not_Some. intros [v Hv].
  apply model_dump_lookup_Some in Hv. naive_solver.
Qed.

(** Under [exclude_none] no entry holds [None]. *)
Lemma model_dump_no_None ex message k :
  model_dump true ex message !! k ≠ Some VNone.
Proof. intros Hv. apply model_dump_lookup_Some in Hv. naive_solver. Qed.

(** Only field names are keys. *)
Lemma model_dump_not_field en ex message k :
  k ∉ (model_fields message).*1 → model_dump en ex message !! k = None.
Proof.
  intros Hk. apply eq_None_not_Some. intros [v Hv].
  apply model_dump_lookup_Some in Hv. destruct Hv as [Hin _].
  apply Hk. apply list_elem_of_fmap. by exists (k, v).
Qed.

Lemma model_dump_role en ex message :
  "role" ∉ ex → model_dump en ex message !! "role" = Some (VRole (role message)).
Proof.
  intros Hex. apply model_dump_lookup_Some. split_and!; [|done..].
  unfold model_fields. set_solver.
Qed.

Lemma model_dump_metadata ex message :
  "metadata" ∉ ex →
  model_dump true ex message !! "metadata" = VDict <$> metadata message.
Proof.
  intros Hex. destruct (metadata message) as [md|] eqn:Hmd; simpl.
  - apply model_dump_lookup_Some. split_and!; [|done..].
    unfold model_fields. rewrite Hmd. set_solver.
  - apply eq_None_not_Some. intros [v Hv].
    apply model_dump_lookup_Some in Hv. destruct Hv as (Hin & _ & Hn).
    unfold model_fields in Hin. rewrite Hmd in Hin. set_solver.
Qed.

Lemma model_dump_content ex message :
  "content" ∉ ex →
  model_dump true ex message !! "content" = VStr <$> content message.
Proof.
  intros Hex. destruct (content message) as [c|] eqn:Hc; simpl.
  - apply model_dump_lookup_Some. split_and!; [|done..].
    unfold model_fields. rewrite Hc. set_solver.
  - apply eq_None_not_Some. intros [v Hv].
    apply model_dump_lookup_Some in Hv. destruct Hv as (Hin & _ & Hn).
    unfold model_fields in Hin. rewrite Hc in Hin. set_solver.
Qed.
End model_dump_facts.

(** ** The loop body, case by case *)

Section prepare_message_facts.
Implicit Types (message : ChatMessageContent) (k : string) (v : Value).

Lemma py_contains_true {V} k (d : gmap string V) :
  py_contains k d = true ↔ is_Some (d !! k).
Proof. unfold py_contains. apply bool_decide_eq_true. Qed.

Lemma py_contains_false {V} k (d : gmap string V) :
  py_contains k d = false ↔ d !! k = None.
Proof.
  unfold py_contains. rewrite bool_decide_eq_false. symmetry.
  apply eq_None_not_Some.
Qed.

Lemma py_contains_lookup {V} k (d : gmap string V) :
  py_contains k d = match d !! k with Some _ => true | None => false end.
Proof.
  destruct (d !! k) eqn:Hk.
  - apply py_contains_true. by rewrite Hk.
  - by apply py_contains_false.
Qed.

Lemma py_getitem_Some {V} (d : gmap string V) k x :
  d !! k = Some x → py_getitem d k = Ok x.
Proof. unfold py_getitem. by intros ->. Qed.

(** A message that is not a tool message is dumped without the five
    named fields. *)
Lemma prepare_message_other message :
  role message ≠ TOOL →
  prepare_message message =
    Ok (model_dump true
          ["metadata"; "encoding"; "ai_model_id"; "inner_content"; "choice_index"]
          message).
Proof. intros Hr. unfold prepare_message. by rewrite decide_False. Qed.

(** A tool message: the three outcomes of the metadata test. *)
Lemma prepare_message_tool message :
  role message = TOOL →
  prepare_message message =
    let dump := model_dump true ["encoding"] message in
    match metadata message with
    | None => Ok dump
    | Some md =>
        match md !! "tool_call_id" with
        | None => Ok dump
        | Some tc =>
            match md !! "function_name" with
            | None => Raise (KeyError "function_name")
            | Some fn =>
                Ok (delete "metadata"
                      (<["name" := fn]> (<["tool_call_id" := tc]> dump)))
            end
        end
    end.
Proof.
  intros Hr. unfold prepare_message. rewrite decide_True by done.
  assert (Hmd : model_dump true ["encoding"] message !! "metadata"
                = VDict <$> metadata message).
  { apply model_dump_metadata. set_solver. }
  cbv zeta. rewrite (py_contains_lookup "metadata"), Hmd.
  destruct (metadata message) as [md|]; simpl in *; [|done].
  rewrite !(py_getitem_Some _ _ _ Hmd). simpl.
  rewrite (py_contains_lookup "tool_call_id").
  destruct (md !! "tool_call_id") as [tc|] eqn:Htc; [|done].
  rewrite (py_getitem_Some _ _ _ Htc). simpl.
  rewrite (py_getitem_Some _ "metadata" (VDict md)); simpl.
  - unfold py_getitem, py_setitem, py_pop.
    destruct (md !! "function_name") as [fn|]; done.
  - unfold py_setitem. by rewrite lookup_insert_ne.
Qed.

(** The loop body returns exactly on the well-keyed messages. *)
Lemma prepare_message_Ok message :
  (∃ r, prepare_message message = Ok r) ↔ well_keyed message = true.
Proof.
  unfold well_keyed. destruct (decide (role message = TOOL)) as [Hr|Hr].
  - rewrite prepare_message_tool by done. rewrite Hr. cbv zeta.
    destruct (metadata message) as [md|]; [|naive_solver].
    rewrite !py_contains_lookup.
    destruct (md !! "tool_call_id"); [|naive_solver].
    destruct (md !! "function_name"); naive_solver.
  - rewrite prepare_message_other by done.
    destruct (role message); naive_solver.
Qed.

Lemma prepare_message_Raise message e :
  prepare_message message = Raise e → e = KeyError "function_name".
Proof.
  destruct (decide (role message = TOOL)) as [Hr|Hr].
  - rewrite prepare_message_tool by done. cbv zeta.
    repeat case_match; naive_solver.
  - by rewrite prepare_message_other.
Qed.
End prepare_message_facts.

(** ** The loop *)

Section loop_facts.
Implicit Types (msgs : list ChatMessageContent)
  (rs acc : list (gmap string Value)).

(** The accumulator loop is a monadic map. *)
Lemma prepare_loop_mapM msgs acc :
  prepare_loop msgs acc = rs ← mapM prepare_message msgs; Ok (acc ++ rs)%list.
Proof.
  revert acc. induction msgs as [|m msgs IH]; intros acc; simpl.
  - by rewrite app_nil_r.
  - destruct (prepare_message m) as [r|e]; simpl; [|done].
    rewrite IH. destruct (mapM prepare_message msgs) as [rs|e]; simpl; [|done].
    by rewrite <- app_assoc.
Qed.

Lemma mapM_result_Ok msgs rs :
  mapM prepare_message msgs = Ok rs ↔
    Forall2 (λ m r, prepare_message m = Ok r) msgs rs.
Proof.
  revert rs. induction msgs as [|m msgs IH]; intros rs; simpl.
  - split; [intros [= <-]; constructor | by inversion 1].
  - destruct (prepare_message m) as [r|e] eqn:Hm; simpl.
    + destruct (mapM prepare_message msgs) as [rs'|e] eqn:Hms; simpl.
      * split.
        -- intros [= <-]. constructor; [done|]. by apply IH.
        -- intros Hall. inversion Hall as [|? r' ? rs'' Hr Hrs]; subst.
           apply IH in Hrs. unfold mret, result_ret. congruence.
      * split; [done|].
        intros Hall. inversion Hall as [|? r' ? rs'' Hr Hrs]; subst.
        apply IH in Hrs. done.
    + split; [done|]. intros Hall. inversion Hall; congruence.
Qed.

(** The method returns [rs] exactly when [rs] lists, in order, the
    dictionary of every message. *)
Lemma prepare_chat_history_Ok chat_history rs :
  _prepare_chat_history_for_request chat_history = Ok rs ↔
    Forall2 (λ m r, prepare_message m = Ok r) (messages chat_history) rs.
Proof.
  unfold _prepare_chat_history_for_request. rewrite prepare_loop_mapM.
  rewrite <- mapM_result_Ok.
  destruct (mapM prepare_message (messages chat_history)); simpl; naive_solver.
Qed.

(** It returns exactly on the histories of well-keyed messages. *)
Lemma prepare_chat_history_returns chat_history :
  (∃ rs, _prepare_chat_history_for_request chat_history = Ok rs) ↔
    forallb well_keyed (messages chat_history) = true.
Proof.
  setoid_rewrite prepare_chat_history_Ok.
  induction (messages chat_history) as [|m msgs IH]; simpl.
  - split; [done|]. intros _. exists []. constructor.
  - rewrite andb_true_iff, <- IH, <- prepare_message_Ok. split.
    + intros [rs Hrs]. inversion Hrs; simplify_eq. eauto.
    + intros [[r Hr] [rs Hrs]]. exists (r :: rs). by constructor.
Qed.

(** The dictionary at an index is that of the message at that index. *)
Lemma prepare_chat_history_lookup chat_history rs i m :
  _prepare_chat_history_for_request chat_history = Ok rs →
  messages chat_history !! i = Some m →
  ∃ r, rs !! i = Some r ∧ prepare_message m = Ok r.
Proof.
  rewrite prepare_chat_history_Ok. intros Hall Hm.
  destruct (Forall2_lookup_l _ _ _ _ _ Hall Hm) as (r & Hr & Hp). eauto.
Qed.

Lemma prepare_chat_history_Raise chat_history e :
  _prepare_chat_history_for_request chat_history = Raise e →
  e = KeyError "function_name".
Proof.
  unfold _prepare_chat_history_for_request.
  generalize (@nil (gmap string Value)).
  induction (messages chat_history) as [|m msgs IH]; intros acc; simpl; [done|].
  destruct (prepare_message m) as [r|e'] eqn:Hm; simpl.
  - apply IH.
  - intros [= <-]. by eapply prepare_message_Raise.
Qed.
End loop_facts.

(** ** The records of the method *)

Section records.
Implicit Types (message : ChatMessageContent) (chat_history : ChatHistory)
  (k : string) (v : Value) (r : gmap string Value)
  (rs : list (gmap string Value)).

(** Where a message sits in a history that the method accepts, its
    dictionary sits in the result. *)
Lemma prepare_chat_history_at chat_history rs i message r :
  _prepare_chat_history_for_request chat_history = Ok rs →
  messages chat_history !! i = Some message →
  prepare_message message = Ok r →
  rs !! i = Some r.
Proof.
  intros Hrs Hm Hr.
  destruct (prepare_chat_history_lookup _ _ _ _ Hrs Hm) as (r' & Hi & Hr').
  congruence.
Qed.

Lemma prepare_chat_history_singleton message r :
  prepare_message message = Ok r →
  _prepare_chat_history_for_request {| messages := [message] |} = Ok [r].
Proof.
  intros Hr. unfold _prepare_chat_history_for_request. simpl. by rewrite Hr.
Qed.

Lemma forallb_well_keyed_lookup chat_history i message :
  forallb well_keyed (messages chat_history) = true →
  messages chat_history !! i = Some message →
  well_keyed message = true.
Proof.
  intros Hall Hm. rewrite forallb_forall in Hall. apply Hall.
  apply list_elem_of_In. by eapply list_elem_of_lookup_2.
Qed.

(** The promotion where the method returns: in a history on which it does
    not raise, a tool message whose dump has a metadata dictionary with a
    [tool_call_id] key yields a record whose [tool_call_id] is
    [metadata.tool_call_id], whose [name] is [metadata.function_name], and
    which has no [metadata] key. *)
Theorem tool_metadata_promotion chat_history i message md tc :
  forallb well_keyed (messages chat_history) = true →
  messages chat_history !! i = Some message →
  role message = TOOL →
  model_dump true ["encoding"] message !! "metadata" = Some (VDict md) →
  md !! "tool_call_id" = Some tc →
  ∃ rs r fn,
    _prepare_chat_history_for_request chat_history = Ok rs ∧
    rs !! i = Some r ∧
    md !! "function_name" = Some fn ∧
    r !! "tool_call_id" = Some tc ∧
    r !! "name" = Some fn ∧
    r !! "metadata" = None ∧
    r = delete "metadata"
          (<["name" := fn]>
             (<["tool_call_id" := tc]> (model_dump true ["encoding"] message))).
Proof.
  intros Hall Hm Hr Hmd Htc.
  destruct (proj2 (prepare_chat_history_returns chat_history) Hall) as [rs Hrs].
  destruct (prepare_chat_history_lookup _ _ _ _ Hrs Hm) as (r & Hi & Hp).
  rewrite model_dump_metadata in Hmd by set_solver.
  rewrite prepare_message_tool in Hp by done. cbv zeta in Hp.
  destruct (metadata message) as [md'|]; simpl in Hmd; [|done].
  injection Hmd as ->. rewrite Htc in Hp.
  destruct (md !! "function_name") as [fn|]; [|done].
  injection Hp as <-. eexists rs, _, fn. split_and!; try done.
  - rewrite lookup_delete_ne, lookup_insert_ne by done. apply lookup_insert_eq.
  - rewrite lookup_delete_ne by done. apply lookup_insert_eq.
  - apply lookup_delete_eq.
Qed.

(** The promotion on the tool message of the scenario. *)
Lemma tool_metadata_promotion_witness :
  ∃ rs r fn,
    _prepare_chat_history_for_request
      {| messages := [plain USER "2+2?"; tool_42] |} = Ok rs ∧
    rs !! 1 = Some r ∧
    ({[ "tool_call_id" := VStr "call_1"; "function_name" := VStr "add" ]}
       : gmap string Value) !! "function_name" = Some fn ∧
    r !! "tool_call_id" = Some (VStr "call_1") ∧
    r !! "name" = Some fn ∧
    r !! "metadata" = None ∧
    r = delete "metadata"
          (<["name" := fn]>
             (<["tool_call_id" := VStr "call_1"]>
                (model_dump true ["encoding"] tool_42))).
Proof.
  apply (tool_metadata_promotion
           {| messages := [plain USER "2+2?"; tool_42] |} 1 tool_42
           {[ "tool_call_id" := VStr "call_1"; "function_name" := VStr "add" ]}
           (VStr "call_1")); vm_compute; reflexivity.
Defined.

(** C1 does not hold of the code: a tool message whose dump has a metadata
    dictionary with a [tool_call_id] key, and no [function_name] in it, gets
    no promoted record.  The test on line 86 passes, line 87 copies
    [tool_call_id], and the unguarded [dump["metadata"]["function_name"]]
    on line 88 raises [KeyError]: the method returns nothing.  This is the
    defect stated under C5. *)
Lemma tool_call_id_without_function_name :
  role tool_no_function_name = TOOL ∧
  (∃ md, model_dump true ["encoding"] tool_no_function_name !! "metadata"
           = Some (VDict md) ∧
         is_Some (md !! "tool_call_id")) ∧
  _prepare_chat_history_for_request {| messages := [tool_no_function_name] |}
    = Raise (KeyError "function_name") ∧
  ¬ ∃ rs,
      _prepare_chat_history_for_request {| messages := [tool_no_function_name] |}
        = Ok rs.
Proof.
  split_and!.
  - reflexivity.
  - exists {[ "tool_call_id" := VStr "call_1" ]}. split; [by vm_compute|].
    by exists (VStr "call_1").
  - by vm_compute.
  - intros [rs Hrs]. vm_compute in Hrs. discriminate.
Qed.

(** C2: for a message whose role is System, User or Assistant the method
    builds a record, without raising, that has none of the keys [metadata],
    [encoding], [ai_model_id] (modelId), [inner_content] (innerContent),
    [choice_index] (choiceIndex), whatever the message holds there, and no
    key for any other field whose value is [None]; what is left is [role]
    and, when it is set, [content].  That record is what the method emits
    at the message's index. *)
Theorem non_tool_record message :
  role message ∈ [SYSTEM; USER; ASSISTANT] →
  ∃ r,
    prepare_message message = Ok r ∧
    _prepare_chat_history_for_request {| messages := [message] |} = Ok [r] ∧
    (∀ k, k ∈ ["metadata"; "encoding"; "ai_model_id"; "inner_content";
               "choice_index"; "modelId"; "innerContent"; "choiceIndex"] →
          r !! k = None) ∧
    (∀ k v, (k, v) ∈ model_fields message → v = VNone → r !! k = None) ∧
    (∀ k, r !! k ≠ Some VNone) ∧
    r !! "role" = Some (VRole (role message)) ∧
    r !! "content" = VStr <$> content message ∧
    (∀ chat_history i rs,
       messages chat_history !! i = Some message →
       _prepare_chat_history_for_request chat_history = Ok rs →
       rs !! i = Some r).
Proof.
  intros Hrole.
  assert (Hr : role message ≠ TOOL) by (intros Ht; rewrite Ht in Hrole; set_solver).
  pose proof (prepare_message_other _ Hr) as Hp.
  eexists. split; [exact Hp|]. split_and!.
  - by apply prepare_chat_history_singleton.
  - intros k Hk.
    destruct (decide (k ∈ ["metadata"; "encoding"; "ai_model_id";
                           "inner_content"; "choice_index"])) as [Hex|Hex].
    + by apply model_dump_excluded.
    + apply model_dump_not_field. rewrite model_fields_keys. set_solver.
  - intros k v Hin ->. apply eq_None_not_Some. intros [v Hv].
    apply model_dump_lookup_Some in Hv. destruct Hv as (Hin' & _ & Hn).
    assert (v = VNone); [|naive_solver].
    pose proof (model_fields_NoDup message) as Hnd.
    apply (elem_of_list_to_map_1 (M := gmap string)) in Hin, Hin'; [|done..].
    congruence.
  - intros k. apply model_dump_no_None.
  - apply model_dump_role. set_solver.
  - apply model_dump_content. set_solver.
  - intros chat_history i rs Hm Hrs. by eapply prepare_chat_history_at.
Qed.

(** The exclusions on an assistant message that has every attribute set. *)
Lemma non_tool_record_witness :
  ∃ r,
    prepare_message assistant_full = Ok r ∧
    _prepare_chat_history_for_request {| messages := [assistant_full] |} = Ok [r] ∧
    (∀ k, k ∈ ["metadata"; "encoding"; "ai_model_id"; "inner_content";
               "choice_index"; "modelId"; "innerContent"; "choiceIndex"] →
          r !! k = None) ∧
    (∀ k v, (k, v) ∈ model_fields assistant_full → v = VNone → r !! k = None) ∧
    (∀ k, r !! k ≠ Some VNone) ∧
    r !! "role" = Some (VRole (role assistant_full)) ∧
    r !! "content" = VStr <$> content assistant_full ∧
    (∀ chat_history i rs,
       messages chat_history !! i = Some assistant_full →
       _prepare_chat_history_for_request chat_history = Ok rs →
       rs !! i = Some r).
Proof.
  apply (non_tool_record assistant_full). simpl. repeat constructor.
Defined.

(** Order where the method returns: on a history on which it does not
    raise, the method returns one record per message, the record at index
    [i] being the one built from the message at index [i]; the empty
    history gives the empty list. *)
Theorem order_preservation chat_history :
  forallb well_keyed (messages chat_history) = true →
  ∃ rs,
    _prepare_chat_history_for_request chat_history = Ok rs ∧
    length rs = length (messages chat_history) ∧
    (∀ i m, messages chat_history !! i = Some m →
            ∃ r, rs !! i = Some r ∧ prepare_message m = Ok r) ∧
    (∀ i r, rs !! i = Some r →
            ∃ m, messages chat_history !! i = Some m ∧ prepare_message m = Ok r) ∧
    (messages chat_history = [] → rs = []).
Proof.
  intros Hall.
  destruct (proj2 (prepare_chat_history_returns chat_history) Hall) as [rs Hrs].
  exists rs. split; [done|].
  pose proof (proj1 (prepare_chat_history_Ok _ _) Hrs) as H2.
  split_and!.
  - symmetry. by eapply Forall2_length.
  - intros i m Hm. by eapply prepare_chat_history_lookup.
  - intros i r Hi.
    destruct (Forall2_lookup_r _ _ _ _ _ H2 Hi) as (m & Hm & Hp). eauto.
  - intros Hnil. rewrite Hnil in H2. by inversion H2.
Qed.

(** The three-message scenario followed by a tool result. *)
Lemma order_preservation_witness :
  ∃ rs,
    _prepare_chat_history_for_request
      {| messages := [plain SYSTEM "be terse"; plain USER "2+2?";
                      plain ASSISTANT "4"; tool_42] |} = Ok rs ∧
    length rs = 4 ∧
    (∀ i m, [plain SYSTEM "be terse"; plain USER "2+2?";
             plain ASSISTANT "4"; tool_42] !! i = Some m →
            ∃ r, rs !! i = Some r ∧ prepare_message m = Ok r) ∧
    (∀ i r, rs !! i = Some r →
            ∃ m, [plain SYSTEM "be terse"; plain USER "2+2?";
                  plain ASSISTANT "4"; tool_42] !! i = Some m ∧
                 prepare_message m = Ok r) ∧
    ([plain SYSTEM "be terse"; plain USER "2+2?"; plain ASSISTANT "4"; tool_42]
       = [] → rs = []).
Proof.
  apply (order_preservation
           {| messages := [plain SYSTEM "be terse"; plain USER "2+2?";
                           plain ASSISTANT "4"; tool_42] |}).
  vm_compute. reflexivity.
Defined.

(** C3 does not hold of the code: for a history of two messages, a user
    message and a tool message whose metadata has [tool_call_id] and no
    [function_name], the method returns no list at all, so there is not one
    record per message.  The [KeyError] of line 88 aborts the loop: the
    defect stated under C5. *)
Lemma history_without_records :
  length (messages {| messages := [plain USER "2+2?"; tool_no_function_name] |}) = 2 ∧
  ∀ rs,
    _prepare_chat_history_for_request
      {| messages := [plain USER "2+2?"; tool_no_function_name] |} ≠ Ok rs.
Proof. split; [reflexivity|]. intros rs Hrs. vm_compute in Hrs. discriminate. Qed.

(** The scenario of three plain messages: three records, each with
    [role] and [content] only, in the order of the messages. *)
Example scenario_three_messages :
  _prepare_chat_history_for_request
    {| messages := [plain SYSTEM "be terse"; plain USER "2+2?";
                    plain ASSISTANT "4"] |}
  = Ok [ {[ "role" := VRole SYSTEM; "content" := VStr "be terse" ]};
         {[ "role" := VRole USER; "content" := VStr "2+2?" ]};
         {[ "role" := VRole ASSISTANT; "content" := VStr "4" ]} ].
Proof. by vm_compute. Qed.

(** The empty history is not an error. *)
Lemma empty_history :
  _prepare_chat_history_for_request {| messages := [] |} = Ok [].
Proof. reflexivity. Qed.

(** C4: a tool message whose metadata is absent, or has no [tool_call_id]
    key, is not an error: its record is the dump of its non-[None] fields
    without [encoding], with the metadata dictionary, when there is one,
    kept as it is. *)
Theorem tool_metadata_fallback message :
  role message = TOOL →
  (metadata message = None ∨
   ∃ md, metadata message = Some md ∧ md !! "tool_call_id" = None) →
  let dump := model_dump true ["encoding"] message in
  prepare_message message = Ok dump ∧
  _prepare_chat_history_for_request {| messages := [message] |} = Ok [dump] ∧
  dump !! "metadata" = VDict <$> metadata message ∧
  dump !! "encoding" = None ∧
  (∀ k v, dump !! k = Some v ↔
          ((k, v) ∈ model_fields message ∧ k ≠ "encoding" ∧ v ≠ VNone)) ∧
  (∀ chat_history i rs,
     messages chat_history !! i = Some message →
     _prepare_chat_history_for_request chat_history = Ok rs →
     rs !! i = Some dump).
Proof.
  intros Hr Hmd dump.
  assert (Hp : prepare_message message = Ok dump).
  { rewrite prepare_message_tool by done. cbv zeta.
    destruct Hmd as [->|(md & -> & ->)]; done. }
  split_and!.
  - done.
  - by apply prepare_chat_history_singleton.
  - apply model_dump_metadata. set_solver.
  - apply model_dump_excluded. set_solver.
  - intros k v. unfold dump. rewrite model_dump_lookup_Some.
    rewrite list_elem_of_singleton. naive_solver.
  - intros chat_history i rs Hm Hrs. by eapply prepare_chat_history_at.
Qed.

(** The fallback on a tool message whose metadata names only the
    function. *)
Lemma tool_metadata_fallback_witness :
  let dump := model_dump true ["encoding"] tool_no_call_id in
  prepare_message tool_no_call_id = Ok dump ∧
  _prepare_chat_history_for_request {| messages := [tool_no_call_id] |} = Ok [dump] ∧
  dump !! "metadata" = VDict <$> metadata tool_no_call_id ∧
  dump !! "encoding" = None ∧
  (∀ k v, dump !! k = Some v ↔
          ((k, v) ∈ model_fields tool_no_call_id ∧ k ≠ "encoding" ∧ v ≠ VNone)) ∧
  (∀ chat_history i rs,
     messages chat_history !! i = Some tool_no_call_id →
     _prepare_chat_history_for_request chat_history = Ok rs →
     rs !! i = Some dump).
Proof.
  apply (tool_metadata_fallback tool_no_call_id).
  - reflexivity.
  - right. exists {[ "function_name" := VStr "add" ]}. split; reflexivity.
Defined.

(** C5 does not hold of the code: the test before the promotion asks for
    [tool_call_id] only, and [dump["metadata"]["function_name"]] raises
    [KeyError] on a tool message whose metadata lacks [function_name]. *)
Theorem missing_function_name_raises :
  _prepare_chat_history_for_request
    {| messages := [plain SYSTEM "be terse"; tool_no_function_name] |}
  = Raise (KeyError "function_name").
Proof. by vm_compute. Qed.

Lemma scenario_tool_record_value :
  _prepare_chat_history_for_request {| messages := [tool_42] |}
  = Ok [ {[ "role" := VRole TOOL; "content" := VStr "42";
            "tool_call_id" := VStr "call_1"; "name" := VStr "add" ]} ].
Proof. by vm_compute. Qed.

(** C6, as the code has it: the record of the scenario's tool message has
    four keys, [role] besides [content], [tool_call_id] and [name]. *)
Theorem scenario_tool_record :
  _prepare_chat_history_for_request {| messages := [tool_42] |}
  = Ok [ {[ "role" := VRole TOOL; "content" := VStr "42";
            "tool_call_id" := VStr "call_1"; "name" := VStr "add" ]} ].
Proof. by vm_compute. Qed.

(** C6 as it is stated fails: the record is not the three-key one. *)
Lemma scenario_tool_record_not_three_keys :
  _prepare_chat_history_for_request {| messages := [tool_42] |}
  ≠ Ok [ {[ "content" := VStr "42"; "tool_call_id" := VStr "call_1";
            "name" := VStr "add" ]} ].
Proof.
  rewrite scenario_tool_record_value. intros Heq.
  assert (Hrole : ∀ r1 r2 : gmap string Value,
            Ok [r1] = Ok [r2] → r1 !! "role" = r2 !! "role")
    by (by intros r1 r2 [= ->]).
  apply Hrole in Heq. vm_compute in Heq. discriminate.
Qed.

(** C10: every record the method returns has a [role] key, holding the
    role of the message it was built from; for a tool message whose
    metadata names the call, the record has [tool_call_id] and [name]
    next to it. *)
Theorem every_record_has_role chat_history rs i r :
  _prepare_chat_history_for_request chat_history = Ok rs →
  rs !! i = Some r →
  ∃ m, messages chat_history !! i = Some m ∧
       r !! "role" = Some (VRole (role m)) ∧
       (∀ md, role m = TOOL → metadata m = Some md →
              is_Some (md !! "tool_call_id") →
              r !! "tool_call_id" = md !! "tool_call_id" ∧
              r !! "name" = md !! "function_name" ∧
              is_Some (r !! "name")).
Proof.
  intros Hrs Hi. apply prepare_chat_history_Ok in Hrs.
  destruct (Forall2_lookup_r _ _ _ _ _ Hrs Hi) as (m & Hm & Hp).
  exists m. split; [done|].
  destruct (decide (role m = TOOL)) as [Hr|Hr].
  - rewrite prepare_message_tool in Hp by done. cbv zeta in Hp.
    assert (Hrole : model_dump true ["encoding"] m !! "role"
                    = Some (VRole (role m))) by (apply model_dump_role; set_solver).
    destruct (metadata m) as [md|] eqn:Hmd.
    + destruct (md !! "tool_call_id") as [tc|] eqn:Htc.
      * destruct (md !! "function_name") as [fn|] eqn:Hfn; [|done].
        injection Hp as <-. split.
        -- by rewrite lookup_delete_ne, !lookup_insert_ne.
        -- intros md' _ [= <-] _. rewrite Htc, Hfn.
           rewrite !lookup_delete_ne, lookup_insert_eq by done.
           rewrite lookup_insert_ne, lookup_insert_eq by done. eauto.
      * injection Hp as <-. split; [done|].
        intros md' _ [= <-] [? ?]. congruence.
    + injection Hp as <-. split; [done|]. intros md' _ [=].
  - rewrite prepare_message_other in Hp by done. injection Hp as <-. split.
    + apply model_dump_role. set_solver.
    + intros md Ht. done.
Qed.

(** The role key on the scenario's tool record. *)
Lemma every_record_has_role_witness :
  ∃ m, [plain USER "2+2?"; tool_42] !! 1 = Some m ∧
       ({[ "role" := VRole TOOL; "content" := VStr "42";
           "tool_call_id" := VStr "call_1"; "name" := VStr "add" ]}
          : gmap string Value) !! "role" = Some (VRole (role m)) ∧
       (∀ md, role m = TOOL → metadata m = Some md →
              is_Some (md !! "tool_call_id") →
              ({[ "role" := VRole TOOL; "content" := VStr "42";
                  "tool_call_id" := VStr "call_1"; "name" := VStr "add" ]}
                 : gmap string Value) !! "tool_call_id" = md !! "tool_call_id" ∧
              ({[ "role" := VRole TOOL; "content" := VStr "42";
                  "tool_call_id" := VStr "call_1"; "name" := VStr "add" ]}
                 : gmap string Value) !! "name" = md !! "function_name" ∧
              is_Some (({[ "role" := VRole TOOL; "content" := VStr "42";
                           "tool_call_id" := VStr "call_1"; "name" := VStr "add" ]}
                          : gmap string Value) !! "name")).
Proof.
  apply (every_record_has_role
           {| messages := [plain USER "2+2?"; tool_42] |}
           [ {[ "role" := VRole USER; "content" := VStr "2+2?" ]};
             {[ "role" := VRole TOOL; "content" := VStr "42";
                "tool_call_id" := VStr "call_1"; "name" := VStr "add" ]} ]
           1); vm_compute; reflexivity.
Defined.
End records.

(** ** The store model: what a call may change *)

Section store_frame.
Implicit Types (σ : Store.store) (l : Store.loc).

Lemma run_bind {A B} (c : Store.M A) (k : A → Store.M B) σ :
  (c ≫= k) σ =
    match c σ with
    | (Ok a, σ') => k a σ'
    | (Raise e, σ') => (Raise e, σ')
    end.
Proof. reflexivity. Qed.

Lemma run_ret {A} (a : A) σ : (mret a : Store.M A) σ = (Ok a, σ).
Proof. reflexivity. Qed.

Lemma preserves_ret {A} σ0 (a : A) (Q : A → Prop) :
  Q a → Store.preserves σ0 (mret a) Q.
Proof. intros HQ σ Hσ. rewrite run_ret. simpl. split; [done|]. by intros ? [= <-]. Qed.

Lemma preserves_raise {A} σ0 e (Q : A → Prop) : Store.preserves σ0 (Store.raise e) Q.
Proof. intros σ Hσ. by split. Qed.

Lemma preserves_lift {A} σ0 (r : result A) : Store.preserves σ0 (Store.lift r) (λ _, True).
Proof. intros σ Hσ. by split. Qed.

Lemma preserves_bind {A B} σ0 (c : Store.M A) (k : A → Store.M B) Q R :
  Store.preserves σ0 c Q →
  (∀ a, Q a → Store.preserves σ0 (k a) R) →
  Store.preserves σ0 (c ≫= k) R.
Proof.
  intros Hc Hk σ Hσ. rewrite run_bind.
  destruct (Hc σ Hσ) as [Hσ' HQ]. destruct (c σ) as [[a|e] σ']; simpl in *.
  - apply (Hk a); auto.
  - by split.
Qed.

Lemma preserves_weaken {A} σ0 (c : Store.M A) (Q R : A → Prop) :
  Store.preserves σ0 c Q → (∀ a, Q a → R a) → Store.preserves σ0 c R.
Proof. intros Hc HQR σ Hσ. destruct (Hc σ Hσ). split; auto. Qed.

Lemma preserves_load σ0 l : Store.preserves σ0 (Store.load l) (λ _, True).
Proof.
  intros σ Hσ. unfold Store.load. destruct (σ !! l); simpl; by split.
Qed.

Lemma preserves_alloc σ0 o : Store.preserves σ0 (Store.alloc o) (λ l, l ∉ dom σ0).
Proof.
  intros σ Hσ. unfold Store.alloc. simpl.
  pose proof (is_fresh (dom σ)) as Hfresh.
  split.
  - etrans; [exact Hσ|]. apply insert_subseteq.
    by apply not_elem_of_dom.
  - intros a [= <-]. intros Hin. apply Hfresh.
    by eapply (subseteq_dom σ0 σ).
Qed.

Lemma preserves_write σ0 l o :
  l ∉ dom σ0 → Store.preserves σ0 (Store.write l o) (λ _, True).
Proof.
  intros Hl σ Hσ. unfold Store.write. simpl. split; [|done].
  apply map_subseteq_spec. intros l' o' Hl'.
  rewrite lookup_insert_ne.
  - by eapply lookup_weaken.
  - intros ->. apply Hl. apply elem_of_dom. eauto.
Qed.

Ltac preserves_load_as :=
  eapply preserves_bind; [apply preserves_load|];
  intros [] _; simpl; first [by apply preserves_ret | apply preserves_raise].

Lemma preserves_load_history σ0 l : Store.preserves σ0 (Store.load_history l) (λ _, True).
Proof. unfold Store.load_history. preserves_load_as. Qed.

Lemma preserves_load_list σ0 l : Store.preserves σ0 (Store.load_list l) (λ _, True).
Proof. unfold Store.load_list. preserves_load_as. Qed.

Lemma preserves_load_message σ0 l : Store.preserves σ0 (Store.load_message l) (λ _, True).
Proof. unfold Store.load_message. preserves_load_as. Qed.

Lemma preserves_load_dict σ0 l : Store.preserves σ0 (Store.load_dict l) (λ _, True).
Proof. unfold Store.load_dict. preserves_load_as. Qed.

Lemma preserves_load_dump σ0 l : Store.preserves σ0 (Store.load_dump l) (λ _, True).
Proof. unfold Store.load_dump. preserves_load_as. Qed.

Lemma preserves_serialize σ0 field :
  Store.preserves σ0 (Store.serialize field) (λ _, True).
Proof.
  unfold Store.serialize. destruct (field.2) as [v|l].
  - by apply preserves_ret.
  - eapply preserves_bind; [apply preserves_load_dict|]. intros d _.
    eapply preserves_bind; [apply preserves_alloc|]. intros l' _.
    by apply preserves_ret.
Qed.

Lemma preserves_mapM {A B} σ0 (f : A → Store.M B) (xs : list A) :
  (∀ x, Store.preserves σ0 (f x) (λ _, True)) →
  Store.preserves σ0 (mapM f xs) (λ _, True).
Proof.
  intros Hf. induction xs as [|x xs IH]; simpl.
  - by apply preserves_ret.
  - eapply preserves_bind; [apply Hf|]. intros y _.
    eapply preserves_bind; [apply IH|]. intros ys _. by apply preserves_ret.
Qed.

(** [model_dump] changes no cell and returns a new one. *)
Lemma preserves_model_dump σ0 en ex l :
  Store.preserves σ0 (Store.model_dump en ex l) (λ dump, dump ∉ dom σ0).
Proof.
  unfold Store.model_dump.
  eapply preserves_bind; [apply preserves_load_message|]. intros m _.
  eapply preserves_bind; [apply preserves_mapM, preserves_serialize|].
  intros entries _. apply preserves_alloc.
Qed.

Lemma preserves_dump_contains σ0 k l :
  Store.preserves σ0 (Store.dump_contains k l) (λ _, True).
Proof.
  unfold Store.dump_contains.
  eapply preserves_bind; [apply preserves_load_dump|]. intros d _.
  by apply preserves_ret.
Qed.

Lemma preserves_dump_getitem σ0 k l :
  Store.preserves σ0 (Store.dump_getitem l k) (λ _, True).
Proof.
  unfold Store.dump_getitem.
  eapply preserves_bind; [apply preserves_load_dump|]. intros d _.
  apply preserves_lift.
Qed.

Lemma preserves_dump_setitem σ0 k l s :
  l ∉ dom σ0 → Store.preserves σ0 (Store.dump_setitem l k s) (λ _, True).
Proof.
  intros Hl. unfold Store.dump_setitem.
  eapply preserves_bind; [apply preserves_load_dump|]. intros d _.
  by apply preserves_write.
Qed.

Lemma preserves_dump_pop σ0 k l :
  l ∉ dom σ0 → Store.preserves σ0 (Store.dump_pop l k) (λ _, True).
Proof.
  intros Hl. unfold Store.dump_pop.
  eapply preserves_bind; [apply preserves_load_dump|]. intros d _.
  by apply preserves_write.
Qed.

Lemma preserves_slot_contains σ0 k s :
  Store.preserves σ0 (Store.slot_contains k s) (λ _, True).
Proof.
  unfold Store.slot_contains. destruct s as [v|l].
  - eapply preserves_bind; [apply preserves_lift|]. intros d _.
    by apply preserves_ret.
  - eapply preserves_bind; [apply preserves_load_dict|]. intros d _.
    by apply preserves_ret.
Qed.

Lemma preserves_slot_getitem σ0 k s :
  Store.preserves σ0 (Store.slot_getitem s k) (λ _, True).
Proof.
  unfold Store.slot_getitem. destruct s as [v|l].
  - eapply preserves_bind; [apply preserves_lift|]. intros d _.
    eapply preserves_bind; [apply preserves_lift|]. intros v' _.
    by apply preserves_ret.
  - eapply preserves_bind; [apply preserves_load_dict|]. intros d _.
    eapply preserves_bind; [apply preserves_lift|]. intros v' _.
    by apply preserves_ret.
Qed.

(** The loop body writes to the dictionary it has built, and to no other
    cell. *)
Lemma preserves_prepare_message σ0 l :
  Store.preserves σ0 (Store.prepare_message l) (λ dump, dump ∉ dom σ0).
Proof.
  unfold Store.prepare_message.
  eapply preserves_bind; [apply preserves_load_message|]. intros m _.
  destruct (decide (Store.o_role m = TOOL)); [|apply preserves_model_dump].
  eapply preserves_bind; [apply preserves_model_dump|]. intros dump Hdump.
  eapply preserves_bind; [apply preserves_dump_contains|].
  intros [] _; [|by apply preserves_ret].
  eapply preserves_bind; [apply preserves_dump_getitem|]. intros md _.
  eapply preserves_bind; [apply preserves_slot_contains|].
  intros [] _; [|by apply preserves_ret].
  eapply preserves_bind; [apply preserves_dump_getitem|]. intros md1 _.
  eapply preserves_bind; [apply preserves_slot_getitem|]. intros v1 _.
  eapply preserves_bind; [by apply preserves_dump_setitem|]. intros _ _.
  eapply preserves_bind; [apply preserves_dump_getitem|]. intros md2 _.
  eapply preserves_bind; [apply preserves_slot_getitem|]. intros v2 _.
  eapply preserves_bind; [by apply preserves_dump_setitem|]. intros _ _.
  eapply preserves_bind; [by apply preserves_dump_pop|]. intros _ _.
  by apply preserves_ret.
Qed.

Lemma preserves_prepare_message_at σ l :
  σ ⊆ (Store.prepare_message l σ).2 ∧
  ∀ dump, (Store.prepare_message l σ).1 = Ok dump → dump ∉ dom σ.
Proof. by apply (preserves_prepare_message σ l σ). Qed.

Lemma preserves_list_append σ0 l x :
  l ∉ dom σ0 → Store.preserves σ0 (Store.list_append l x) (λ _, True).
Proof.
  intros Hl. unfold Store.list_append.
  eapply preserves_bind; [apply preserves_load_list|]. intros items _.
  by apply preserves_write.
Qed.

Lemma preserves_prepare_loop σ0 msgs l :
  l ∉ dom σ0 → Store.preserves σ0 (Store.prepare_loop msgs l) (λ _, True).
Proof.
  intros Hl. induction msgs as [|m msgs IH]; simpl.
  - by apply preserves_ret.
  - eapply preserves_bind; [apply preserves_prepare_message|]. intros dump _.
    eapply preserves_bind; [by apply preserves_list_append|]. intros _ _.
    apply IH.
Qed.

(** The method leaves every cell of the store it is called in as it is. *)
Lemma prepare_chat_history_frame σ l :
  σ ⊆ (Store._prepare_chat_history_for_request l σ).2.
Proof.
  assert (Hp : Store.preserves σ (Store._prepare_chat_history_for_request l) (λ _, True)).
  { unfold Store._prepare_chat_history_for_request.
    eapply preserves_bind; [apply preserves_alloc|]. intros lp Hlp.
    eapply preserves_bind.
    { eapply preserves_bind; [apply preserves_load_history|]. intros lm _.
      apply preserves_load_list. }
    intros msgs _.
    eapply preserves_bind; [by apply preserves_prepare_loop|]. intros _ _.
    by apply preserves_ret. }
  by apply Hp.
Qed.
End store_frame.

(** ** The store model computes what the value model computes *)

Section store_reads.
Implicit Types (σ : Store.store) (l : Store.loc) (s : Store.slot).

Lemma slot_valid_mono σ σ' s :
  σ ⊆ σ' → Store.slot_valid σ s → Store.slot_valid σ' s.
Proof.
  intros Hσ. destruct s as [v|l]; simpl; [done|].
  intros [d Hd]. exists d. by eapply lookup_weaken.
Qed.

Lemma read_slot_mono σ σ' s :
  σ ⊆ σ' → Store.slot_valid σ s → Store.read_slot σ' s = Store.read_slot σ s.
Proof.
  intros Hσ. destruct s as [v|l]; simpl; [done|].
  intros [d Hd]. by rewrite Hd, (lookup_weaken _ _ _ _ Hd Hσ).
Qed.

Lemma record_at_mono σ σ' l r :
  σ ⊆ σ' → Store.record_at σ l r → Store.record_at σ' l r.
Proof.
  intros Hσ (d & Hl & Hv & Hr). exists d. split_and!.
  - by eapply lookup_weaken.
  - eapply map_Forall_impl; [exact Hv|]. intros k s. by apply slot_valid_mono.
  - rewrite <- Hr. apply map_fmap_ext. intros k s Hk.
    apply read_slot_mono; [done|]. by apply (Hv k).
Qed.

Lemma record_at_read σ l r :
  Store.record_at σ l r → Store.read_record σ l = Some r.
Proof. intros (d & Hl & _ & Hr). unfold Store.read_record. by rewrite Hl, Hr. Qed.

Lemma records_at_mono σ σ' l rs :
  σ ⊆ σ' → Store.records_at σ l rs → Store.records_at σ' l rs.
Proof.
  intros Hσ (items & Hl & Hall). exists items. split.
  - by eapply lookup_weaken.
  - eapply Forall2_impl; [exact Hall|]. intros ld r. by apply record_at_mono.
Qed.

Lemma records_at_read σ l rs :
  Store.records_at σ l rs → Store.read_records σ l = Some rs.
Proof.
  intros (items & Hl & Hall). unfold Store.read_records. rewrite Hl.
  apply mapM_Some. eapply Forall2_impl; [exact Hall|].
  intros ld r. apply record_at_read.
Qed.

Lemma read_metadata_mono σ σ' o x :
  σ ⊆ σ' → Store.read_metadata σ o = Some x → Store.read_metadata σ' o = Some x.
Proof.
  intros Hσ. destruct o as [l|]; simpl; [|done].
  destruct (σ !! l) as [[]|] eqn:Hl; try done.
  by rewrite (lookup_weaken _ _ _ _ Hl Hσ).
Qed.

Lemma read_message_mono σ σ' l msg :
  σ ⊆ σ' → Store.read_message σ l = Some msg → Store.read_message σ' l = Some msg.
Proof.
  intros Hσ. unfold Store.read_message.
  destruct (σ !! l) as [[| |m| |]|] eqn:Hl; try done.
  rewrite (lookup_weaken _ _ _ _ Hl Hσ).
  destruct (Store.read_metadata σ (Store.o_metadata m)) as [md|] eqn:Hmd; [|done].
  by rewrite (read_metadata_mono _ _ _ _ Hσ Hmd).
Qed.

Lemma read_history_mono σ σ' l h :
  σ ⊆ σ' → Store.read_history σ l = Some h → Store.read_history σ' l = Some h.
Proof.
  intros Hσ. unfold Store.read_history.
  destruct (σ !! l) as [[lm| | | |]|] eqn:Hl; try done.
  rewrite (lookup_weaken _ _ _ _ Hl Hσ).
  destruct (σ !! lm) as [[|items| | |]|] eqn:Hlm; try done.
  rewrite (lookup_weaken _ _ _ _ Hlm Hσ).
  destruct (mapM (Store.read_message σ) items) as [msgs|] eqn:Hms; [|done].
  simpl. intros [= <-].
  assert (mapM (Store.read_message σ') items = Some msgs) as ->; [|done].
  apply mapM_Some. apply mapM_Some in Hms.
  eapply Forall2_impl; [exact Hms|]. intros lmsg msg. by apply read_message_mono.
Qed.

(** What a readable message looks like in the store. *)
Lemma read_message_inv σ l msg :
  Store.read_message σ l = Some msg →
  ∃ m, σ !! l = Some (Store.OMessage m) ∧
       Store.read_metadata σ (Store.o_metadata m) = Some (metadata msg) ∧
       role msg = Store.o_role m ∧
       Forall (λ f, Store.slot_valid σ f.2) (Store.model_fields m) ∧
       prod_map id (Store.read_slot σ) <$> Store.model_fields m = model_fields msg.
Proof.
  unfold Store.read_message.
  destruct (σ !! l) as [[| |m| |]|] eqn:Hl; try done.
  destruct (Store.read_metadata σ (Store.o_metadata m)) as [md|] eqn:Hmd; [|done].
  simpl. intros [= <-]. exists m. split_and!; try done.
  - unfold Store.model_fields, Store.of_option.
    repeat (apply Forall_cons; split); try apply Forall_nil; simpl;
      try (by repeat case_match).
    destruct (Store.o_metadata m) as [lmd|]; simpl in *; [|done].
    destruct (σ !! lmd) as [[]|]; try done. eauto.
  - unfold Store.model_fields, model_fields, Store.of_option, of_option. simpl.
    destruct (Store.o_metadata m) as [lmd|]; simpl in *.
    + destruct (σ !! lmd) as [[]|]; try done. injection Hmd as <-.
      by repeat case_match.
    + injection Hmd as <-. by repeat case_match.
Qed.
End store_reads.

Section store_model_dump.
Implicit Types (σ : Store.store) (l : Store.loc) (s : Store.slot).

Lemma dumped_read σ en ex (f : string * Store.slot) :
  Store.slot_valid σ f.2 →
  dumped en ex (f.1, Store.read_slot σ f.2) = Store.dumped en ex f.
Proof.
  destruct f as [k [v|l]]; simpl; [done|]. intros [d Hd].
  unfold dumped, Store.dumped. simpl. by rewrite Hd.
Qed.

Lemma filter_read σ en ex (fs : list (string * Store.slot)) :
  Forall (λ f, Store.slot_valid σ f.2) fs →
  prod_map id (Store.read_slot σ)
    <$> filter (λ f, Store.dumped en ex f = true) fs
  = filter (λ f, dumped en ex f = true)
      (prod_map id (Store.read_slot σ) <$> fs).
Proof.
  induction 1 as [|f fs Hf Hfs IH]; [done|].
  rewrite fmap_cons.
  change (prod_map id (Store.read_slot σ) f) with (f.1, Store.read_slot σ f.2).
  pose proof (dumped_read σ en ex f Hf) as Hd.
  destruct (Store.dumped en ex f) eqn:Hf'.
  - rewrite !filter_cons_True by done. by rewrite fmap_cons, IH.
  - rewrite !filter_cons_False by congruence. done.
Qed.

Lemma run_load_dict σ l d :
  σ !! l = Some (Store.ODict d) → Store.load_dict l σ = (Ok d, σ).
Proof. intros Hl. unfold Store.load_dict, Store.load. by rewrite run_bind, Hl. Qed.

Lemma run_load_dump σ l d :
  σ !! l = Some (Store.ODump d) → Store.load_dump l σ = (Ok d, σ).
Proof. intros Hl. unfold Store.load_dump, Store.load. by rewrite run_bind, Hl. Qed.

Lemma run_load_list σ l items :
  σ !! l = Some (Store.OList items) → Store.load_list l σ = (Ok items, σ).
Proof. intros Hl. unfold Store.load_list, Store.load. by rewrite run_bind, Hl. Qed.

Lemma run_load_message σ l m :
  σ !! l = Some (Store.OMessage m) → Store.load_message l σ = (Ok m, σ).
Proof. intros Hl. unfold Store.load_message, Store.load. by rewrite run_bind, Hl. Qed.

Lemma run_load_history σ l lm :
  σ !! l = Some (Store.OHistory lm) → Store.load_history l σ = (Ok lm, σ).
Proof. intros Hl. unfold Store.load_history, Store.load. by rewrite run_bind, Hl. Qed.

Lemma alloc_fresh σ o :
  ∃ l, Store.alloc o σ = (Ok l, <[l := o]> σ) ∧ σ !! l = None.
Proof.
  exists (fresh (dom σ)). split; [done|].
  apply not_elem_of_dom, is_fresh.
Qed.

(** Serialising valid fields succeeds, allocates, and keeps what they
    read as. *)
Lemma serialize_fields σ (fs : list (string * Store.slot)) :
  Forall (λ f, Store.slot_valid σ f.2) fs →
  ∃ σ' entries,
    mapM Store.serialize fs σ = (Ok entries, σ') ∧
    σ ⊆ σ' ∧
    Forall (λ e, Store.slot_valid σ' e.2) entries ∧
    prod_map id (Store.read_slot σ') <$> entries
    = prod_map id (Store.read_slot σ) <$> fs.
Proof.
  intros Hfs. revert σ Hfs. induction fs as [|[k s] fs IH]; intros σ Hfs.
  { exists σ, []. by repeat split. }
  apply Forall_cons in Hfs as [Hs Hfs]. simpl in Hs.
  assert (∃ σ1 s1, Store.serialize (k, s) σ = (Ok (k, s1), σ1) ∧ σ ⊆ σ1 ∧
                   Store.slot_valid σ1 s1 ∧
                   Store.read_slot σ1 s1 = Store.read_slot σ s)
    as (σ1 & s1 & Hrun & Hσ1 & Hv1 & Hr1).
  { destruct s as [v|l]; simpl in *.
    - by exists σ, (Store.Imm v).
    - destruct Hs as [d Hd]. unfold Store.serialize. simpl.
      destruct (alloc_fresh σ (Store.ODict d)) as (l' & Hal & Hl').
      exists (<[l' := Store.ODict d]> σ), (Store.Ref l').
      rewrite run_bind, (run_load_dict _ _ _ Hd), run_bind, Hal. simpl.
      split_and!; [done|by apply insert_subseteq| |].
      + exists d. apply lookup_insert_eq.
      + by rewrite lookup_insert_eq, Hd. }
  destruct (IH σ1) as (σ' & entries & Hrun' & Hσ' & Hv' & Hr').
  { eapply Forall_impl; [exact Hfs|]. intros f. by apply slot_valid_mono. }
  exists σ', ((k, s1) :: entries). split_and!.
  - simpl. by rewrite run_bind, Hrun, run_bind, Hrun'.
  - by etrans.
  - apply Forall_cons. split; [|done]. by eapply slot_valid_mono.
  - rewrite !fmap_cons, Hr'. f_equal.
    + unfold prod_map. simpl. f_equal.
      by rewrite (read_slot_mono σ1 σ' s1 Hσ' Hv1).
    + apply Forall_fmap_ext_1.
      eapply Forall_impl; [exact Hfs|]. intros [k' s'] Hs'. simpl in *.
      unfold prod_map. simpl. f_equal. by apply read_slot_mono.
Qed.

(** [model_dump] on a readable message returns a new, well-formed
    dictionary that reads as the value-level dump. *)
Lemma model_dump_refines σ en ex l msg :
  Store.read_message σ l = Some msg →
  ∃ dump σ' d,
    Store.model_dump en ex l σ = (Ok dump, σ') ∧
    σ ⊆ σ' ∧
    σ' !! dump = Some (Store.ODump d) ∧
    map_Forall (λ _ s, Store.slot_valid σ' s) d ∧
    Store.read_slot σ' <$> d = model_dump en ex msg.
Proof.
  intros Hmsg.
  destruct (read_message_inv _ _ _ Hmsg) as (m & Hl & _ & _ & Hvalid & Hfields).
  destruct (serialize_fields σ
              (filter (λ f, Store.dumped en ex f = true) (Store.model_fields m)))
    as (σ1 & entries & Hrun & Hσ1 & Hv1 & Hr1).
  { rewrite Forall_forall in Hvalid |- *. intros f Hf.
    apply list_elem_of_filter in Hf as [_ Hf]. by apply Hvalid. }
  destruct (alloc_fresh σ1 (Store.ODump (list_to_map entries))) as (dump & Hal & Hd).
  exists dump, (<[dump := Store.ODump (list_to_map entries)]> σ1), (list_to_map entries).
  assert (Hσ2 : σ1 ⊆ <[dump := Store.ODump (list_to_map entries)]> σ1)
    by by apply insert_subseteq.
  split_and!.
  - unfold Store.model_dump.
    by rewrite run_bind, (run_load_message _ _ _ Hl), run_bind, Hrun.
  - by etrans.
  - apply lookup_insert_eq.
  - intros k s Hk. apply elem_of_list_to_map_2 in Hk.
    eapply slot_valid_mono; [exact Hσ2|].
    rewrite Forall_forall in Hv1. by apply (Hv1 (k, s)).
  - rewrite <- list_to_map_fmap. unfold model_dump.
    rewrite <- Hfields, <- filter_read by done. rewrite <- Hr1. f_equal.
    apply Forall_fmap_ext_1.
    eapply Forall_impl; [exact Hv1|]. intros [k s] Hs. simpl in *.
    unfold prod_map. simpl. f_equal. by apply read_slot_mono.
Qed.
End store_model_dump.

Section store_prepare_message.
Implicit Types (σ : Store.store) (l dump : Store.loc) (s : Store.slot)
  (d : gmap string Store.slot).

Lemma run_dump_contains σ dump d k :
  σ !! dump = Some (Store.ODump d) →
  Store.dump_contains k dump σ = (Ok (py_contains k d), σ).
Proof.
  intros Hd. unfold Store.dump_contains.
  by rewrite run_bind, (run_load_dump _ _ _ Hd).
Qed.

Lemma run_dump_getitem σ dump d k :
  σ !! dump = Some (Store.ODump d) →
  Store.dump_getitem dump k σ = (py_getitem d k, σ).
Proof.
  intros Hd. unfold Store.dump_getitem.
  by rewrite run_bind, (run_load_dump _ _ _ Hd).
Qed.

Lemma run_dump_setitem σ dump d k s :
  σ !! dump = Some (Store.ODump d) →
  Store.dump_setitem dump k s σ
  = (Ok (), <[dump := Store.ODump (<[k := s]> d)]> σ).
Proof.
  intros Hd. unfold Store.dump_setitem.
  by rewrite run_bind, (run_load_dump _ _ _ Hd).
Qed.

Lemma run_dump_pop σ dump d k :
  σ !! dump = Some (Store.ODump d) →
  Store.dump_pop dump k σ = (Ok (), <[dump := Store.ODump (delete k d)]> σ).
Proof.
  intros Hd. unfold Store.dump_pop.
  by rewrite run_bind, (run_load_dump _ _ _ Hd).
Qed.

Lemma run_slot_contains σ s md k :
  Store.read_slot σ s = VDict md →
  Store.slot_contains k s σ = (Ok (py_contains k md), σ).
Proof.
  unfold Store.slot_contains. destruct s as [v|l]; simpl.
  - by intros ->.
  - destruct (σ !! l) as [[]|] eqn:Hl; try done. intros [= ->].
    by rewrite run_bind, (run_load_dict _ _ _ Hl).
Qed.

Lemma run_slot_getitem σ s md k :
  Store.read_slot σ s = VDict md →
  Store.slot_getitem s k σ
  = (match md !! k with
     | Some v => Ok (Store.Imm v)
     | None => Raise (KeyError k)
     end, σ).
Proof.
  unfold Store.slot_getitem. destruct s as [v|l]; simpl.
  - intros ->. rewrite run_bind. simpl. rewrite run_bind.
    unfold Store.lift, py_getitem. by destruct (md !! k).
  - destruct (σ !! l) as [[]|] eqn:Hl; try done. intros [= ->].
    rewrite run_bind, (run_load_dict _ _ _ Hl), run_bind.
    unfold Store.lift, py_getitem. by destruct (md !! k).
Qed.

(** Rewriting the dictionary under construction does not disturb the
    dictionaries its entries refer to. *)
Lemma slot_update σ dump d d' s :
  σ !! dump = Some (Store.ODump d) →
  Store.slot_valid σ s →
  Store.slot_valid (<[dump := Store.ODump d']> σ) s ∧
  Store.read_slot (<[dump := Store.ODump d']> σ) s = Store.read_slot σ s.
Proof.
  intros Hd. destruct s as [v|l]; simpl; [done|]. intros [md Hmd].
  assert (dump ≠ l) by congruence.
  rewrite lookup_insert_ne by done. rewrite Hmd. eauto.
Qed.

Lemma record_at_update σ dump d d' :
  σ !! dump = Some (Store.ODump d) →
  map_Forall (λ _ s, Store.slot_valid σ s) d' →
  Store.record_at (<[dump := Store.ODump d']> σ) dump (Store.read_slot σ <$> d').
Proof.
  intros Hd Hv. exists d'. split_and!.
  - apply lookup_insert_eq.
  - intros k s Hk. by apply (slot_update σ dump d d' s Hd), (Hv k).
  - apply map_fmap_ext. intros k s Hk.
    by apply (slot_update σ dump d d' s Hd), (Hv k).
Qed.

(** The loop body on a readable message: the same outcome as at the value
    level, the returned cell holding the record. *)
Lemma prepare_message_refines σ l msg :
  Store.read_message σ l = Some msg →
  match prepare_message msg with
  | Ok r => ∃ dump σ',
      Store.prepare_message l σ = (Ok dump, σ') ∧ Store.record_at σ' dump r
  | Raise e => ∃ σ', Store.prepare_message l σ = (Raise e, σ')
  end.
Proof.
  intros Hmsg.
  destruct (read_message_inv _ _ _ Hmsg) as (m & Hl & _ & Hrole & _ & _).
  unfold Store.prepare_message. rewrite run_bind, (run_load_message _ _ _ Hl).
  destruct (decide (Store.o_role m = TOOL)) as [Ht|Ht]; rewrite <- Hrole in Ht.
  2:{ rewrite prepare_message_other by done.
      destruct (model_dump_refines σ true
                  ["metadata"; "encoding"; "ai_model_id"; "inner_content";
                   "choice_index"] l msg Hmsg)
        as (dump & σ' & d & Hrun & _ & Hd & Hv & Hr).
      exists dump, σ'. split; [done|]. by exists d. }
  rewrite prepare_message_tool by done. cbv zeta.
  destruct (model_dump_refines σ true ["encoding"] l msg Hmsg)
    as (dump & σ1 & d & Hrun & _ & Hd & Hv & Hr).
  assert (Hrec : Store.record_at σ1 dump (model_dump true ["encoding"] msg))
    by by exists d.
  assert (Hmd : Store.read_slot σ1 <$> d !! "metadata" = VDict <$> metadata msg).
  { rewrite <- lookup_fmap, Hr. apply model_dump_metadata. set_solver. }
  rewrite run_bind, Hrun, run_bind, (run_dump_contains _ _ _ _ Hd).
  rewrite py_contains_lookup.
  destruct (metadata msg) as [md|]; simpl in Hmd;
    destruct (d !! "metadata") as [s|] eqn:Hs; try done.
  2:{ by exists dump, σ1. }
  injection Hmd as Hmd.
  rewrite run_bind, (run_dump_getitem _ _ _ _ Hd), (py_getitem_Some _ _ _ Hs).
  rewrite run_bind, (run_slot_contains _ _ _ _ Hmd), py_contains_lookup.
  destruct (md !! "tool_call_id") as [tc|] eqn:Htc.
  2:{ by exists dump, σ1. }
  rewrite run_bind, (run_dump_getitem _ _ _ _ Hd), (py_getitem_Some _ _ _ Hs).
  rewrite run_bind, (run_slot_getitem _ _ _ _ Hmd), Htc.
  rewrite run_bind, (run_dump_setitem _ _ _ _ _ Hd).
  set (d2 := <["tool_call_id" := Store.Imm tc]> d).
  set (σ2 := <[dump := Store.ODump d2]> σ1).
  assert (Hd2 : σ2 !! dump = Some (Store.ODump d2)) by apply lookup_insert_eq.
  assert (Hs2 : d2 !! "metadata" = Some s)
    by (unfold d2; by rewrite lookup_insert_ne).
  assert (Hmd2 : Store.read_slot σ2 s = VDict md).
  { rewrite <- Hmd. by apply (slot_update σ1 dump d d2 s Hd), (Hv "metadata"). }
  rewrite run_bind, (run_dump_getitem _ _ _ _ Hd2), (py_getitem_Some _ _ _ Hs2).
  rewrite run_bind, (run_slot_getitem _ _ _ _ Hmd2).
  destruct (md !! "function_name") as [fn|] eqn:Hfn.
  2:{ by exists σ2. }
  rewrite run_bind, (run_dump_setitem _ _ _ _ _ Hd2).
  set (d3 := <["name" := Store.Imm fn]> d2).
  assert (Hd3 : <[dump := Store.ODump d3]> σ2 !! dump = Some (Store.ODump d3))
    by apply lookup_insert_eq.
  rewrite run_bind, (run_dump_pop _ _ _ _ Hd3), run_ret.
  unfold σ2. rewrite !insert_insert_eq.
  eexists dump, _. split; [done|].
  assert (Hv4 : map_Forall (λ _ s, Store.slot_valid σ1 s) (delete "metadata" d3)).
  { apply map_Forall_delete. unfold d3, d2.
    apply map_Forall_insert_2; [done|]. by apply map_Forall_insert_2. }
  pose proof (record_at_update σ1 dump d _ Hd Hv4) as Hfinal.
  unfold d3, d2 in Hfinal.
  rewrite fmap_delete, !fmap_insert, Hr in Hfinal. exact Hfinal.
Qed.
End store_prepare_message.

Section store_loop.
Implicit Types (σ : Store.store) (l lp : Store.loc).

Lemma record_at_append σ lp items items' dump r :
  σ !! lp = Some (Store.OList items) →
  Store.record_at σ dump r →
  Store.record_at (<[lp := Store.OList items']> σ) dump r.
Proof.
  intros Hlp (d & Hd & Hv & Hr). exists d.
  assert (Hvalid : ∀ k s, d !! k = Some s →
            Store.slot_valid (<[lp := Store.OList items']> σ) s ∧
            Store.read_slot (<[lp := Store.OList items']> σ) s
            = Store.read_slot σ s).
  { intros k [v|l'] Hk; simpl; [done|].
    destruct (Hv k _ Hk) as [md Hmd].
    assert (lp ≠ l') by congruence.
    rewrite lookup_insert_ne by done. rewrite Hmd. eauto. }
  split_and!.
  - rewrite lookup_insert_ne; [done|congruence].
  - intros k s Hk. by apply (Hvalid k).
  - rewrite <- Hr. apply map_fmap_ext. intros k s Hk. by apply (Hvalid k).
Qed.

Lemma prepare_loop_refines σ0 items msgs : ∀ σ lp acc,
  σ0 ⊆ σ → lp ∉ dom σ0 →
  Forall2 (λ l msg, Store.read_message σ0 l = Some msg) items msgs →
  Store.records_at σ lp acc →
  match prepare_loop msgs acc with
  | Ok rs => ∃ σ',
      Store.prepare_loop items lp σ = (Ok (), σ') ∧ Store.records_at σ' lp rs
  | Raise e => ∃ σ', Store.prepare_loop items lp σ = (Raise e, σ')
  end.
Proof.
  intros σ lp acc Hσ Hlp Hall. revert σ acc Hσ.
  induction Hall as [|l msg items msgs Hmsg Hall IH]; intros σ acc Hσ Hacc; simpl.
  { by exists σ. }
  pose proof (prepare_message_refines σ l msg
                (read_message_mono _ _ _ _ Hσ Hmsg)) as Hbody.
  destruct (preserves_prepare_message_at σ l) as [Hσ1 Hfresh].
  rewrite run_bind.
  destruct (prepare_message msg) as [r|e]; simpl.
  2:{ destruct Hbody as [σ' ->]. by exists σ'. }
  destruct Hbody as (dump & σ1 & Hrun & Hrec). rewrite Hrun in Hσ1, Hfresh |- *.
  simpl in Hσ1. clear Hfresh.
  destruct (records_at_mono _ _ _ _ Hσ1 Hacc) as (ls & Hls & Hrecs).
  unfold Store.list_append.
  rewrite run_bind, run_bind, (run_load_list _ _ _ Hls). simpl.
  apply IH.
  - apply map_subseteq_spec. intros l' o' Hl'.
    rewrite lookup_insert_ne.
    + eapply lookup_weaken; [|exact Hσ1]. by eapply lookup_weaken.
    + intros ->. apply Hlp, elem_of_dom. eauto.
  - exists (ls ++ [dump])%list. split; [apply lookup_insert_eq|].
    apply Forall2_app.
    + eapply Forall2_impl; [exact Hrecs|]. intros ld r'.
      by apply record_at_append with ls.
    + constructor; [|constructor]. by apply record_at_append with ls.
Qed.

(** The method on a readable history: the outcome of the value-level
    method, the returned cell holding the records. *)
Lemma prepare_chat_history_refines σ l h :
  Store.read_history σ l = Some h →
  match _prepare_chat_history_for_request h with
  | Ok rs => ∃ lp σ',
      Store._prepare_chat_history_for_request l σ = (Ok lp, σ') ∧
      Store.records_at σ' lp rs
  | Raise e => ∃ σ',
      Store._prepare_chat_history_for_request l σ = (Raise e, σ')
  end.
Proof.
  unfold Store.read_history. intros Hh.
  destruct (σ !! l) as [[lm| | | |]|] eqn:Hl; try done.
  destruct (σ !! lm) as [[|items| | |]|] eqn:Hlm; try done.
  destruct (mapM (Store.read_message σ) items) as [msgs|] eqn:Hms; [|done].
  simpl in Hh. injection Hh as <-. apply mapM_Some in Hms.
  destruct (alloc_fresh σ (Store.OList [])) as (lp & Hal & Hlp).
  assert (Hσ : σ ⊆ <[lp := Store.OList []]> σ) by by apply insert_subseteq.
  unfold Store._prepare_chat_history_for_request, _prepare_chat_history_for_request.
  simpl. rewrite run_bind, Hal, run_bind, run_bind.
  rewrite (run_load_history _ _ lm) by (by eapply lookup_weaken).
  rewrite (run_load_list _ _ items) by (by eapply lookup_weaken).
  pose proof (prepare_loop_refines σ items msgs (<[lp := Store.OList []]> σ) lp []
                Hσ (proj2 (not_elem_of_dom _ _) Hlp) Hms) as Hloop.
  rewrite run_bind.
  destruct (prepare_loop msgs []) as [rs|e].
  - destruct Hloop as (σ' & -> & Hrs).
    { exists []. split; [apply lookup_insert_eq|constructor]. }
    by exists lp, σ'.
  - destruct Hloop as (σ' & ->).
    { exists []. split; [apply lookup_insert_eq|constructor]. }
    by exists σ'.
Qed.

Lemma outcome_refines σ l h :
  Store.read_history σ l = Some h →
  Store.outcome (Store._prepare_chat_history_for_request l σ)
  = _prepare_chat_history_for_request h.
Proof.
  intros Hh. pose proof (prepare_chat_history_refines σ l h Hh) as Href.
  destruct (_prepare_chat_history_for_request h) as [rs|e].
  - destruct Href as (lp & σ' & -> & Hrs). simpl.
    by rewrite (records_at_read _ _ _ Hrs).
  - by destruct Href as (σ' & ->).
Qed.
End store_loop.

(** ** Calls on a store: mutation and repetition *)

Section store_calls.
Implicit Types (σ : Store.store) (l : Store.loc) (h : ChatHistory).

(** C7: the outcome of a call is a function of the history alone.  Run in
    a store where the history reads as [h], the method yields what the
    value-level method yields on [h]; a second call, made in the store the
    first one left, yields an equal sequence of records (or raises the same
    exception), and the records of the first call still read the same
    after it. *)
Theorem repeated_calls_agree σ l h :
  Store.read_history σ l = Some h →
  let first := Store._prepare_chat_history_for_request l σ in
  let second := Store._prepare_chat_history_for_request l first.2 in
  Store.outcome first = _prepare_chat_history_for_request h ∧
  Store.outcome second = Store.outcome first ∧
  Store.outcome (first.1, second.2) = Store.outcome first.
Proof.
  intros Hh first second.
  pose proof (prepare_chat_history_frame σ l) as Hσ1. fold first in Hσ1.
  pose proof (prepare_chat_history_frame first.2 l) as Hσ2. fold second in Hσ2.
  pose proof (read_history_mono _ _ _ _ Hσ1 Hh) as Hh1.
  assert (H1 : Store.outcome first = _prepare_chat_history_for_request h)
    by by apply outcome_refines.
  assert (H2 : Store.outcome second = _prepare_chat_history_for_request h)
    by by apply outcome_refines.
  split_and!; [done|congruence|].
  pose proof (prepare_chat_history_refines σ l h Hh) as Href. fold first in Href.
  destruct (_prepare_chat_history_for_request h) as [rs|e].
  - destruct Href as (lp & σ1 & Hfirst & Hrs). rewrite Hfirst in Hσ2 |- *.
    simpl in *. rewrite (records_at_read _ _ _ Hrs).
    by rewrite (records_at_read _ _ _ (records_at_mono _ _ _ _ Hσ2 Hrs)).
  - destruct Href as (σ1 & Hfirst). by rewrite Hfirst.
Qed.

(** Two calls on the example store. *)
Lemma repeated_calls_agree_witness :
  let first :=
    Store._prepare_chat_history_for_request 1%positive Store.example_store in
  let second := Store._prepare_chat_history_for_request 1%positive first.2 in
  Store.outcome first
  = _prepare_chat_history_for_request
      {| messages := [plain USER "2+2?"; tool_42] |} ∧
  Store.outcome second = Store.outcome first ∧
  Store.outcome (first.1, second.2) = Store.outcome first.
Proof.
  apply (repeated_calls_agree Store.example_store 1%positive
           {| messages := [plain USER "2+2?"; tool_42] |}).
  vm_compute. reflexivity.
Defined.

(** C8: a call changes no object that existed before it.  Every cell of
    the store it is run in (the history, its list, each message, each
    metadata dictionary) holds the same object afterwards, and the history
    reads as the same value. *)
Theorem input_not_mutated σ l h :
  Store.read_history σ l = Some h →
  let σ' := (Store._prepare_chat_history_for_request l σ).2 in
  (∀ i o, σ !! i = Some o → σ' !! i = Some o) ∧
  Store.read_history σ' l = Some h.
Proof.
  intros Hh σ'. pose proof (prepare_chat_history_frame σ l) as Hσ.
  fold σ' in Hσ. split.
  - intros i o Hi. by eapply lookup_weaken.
  - by eapply read_history_mono.
Qed.

(** The example store after a call. *)
Lemma input_not_mutated_witness :
  let σ' :=
    (Store._prepare_chat_history_for_request 1%positive Store.example_store).2 in
  (∀ i o, Store.example_store !! i = Some o → σ' !! i = Some o) ∧
  Store.read_history σ' 1%positive
  = Some {| messages := [plain USER "2+2?"; tool_42] |}.
Proof.
  apply (input_not_mutated Store.example_store 1%positive
           {| messages := [plain USER "2+2?"; tool_42] |}).
  vm_compute. reflexivity.
Defined.

(** Whether the call returns or raises, and whatever the store holds at
    its argument, every cell that existed holds the same object
    afterwards. *)
Lemma frame_on_raise σ l :
  ∀ i o, σ !! i = Some o →
         (Store._prepare_chat_history_for_request l σ).2 !! i = Some o.
Proof.
  intros i o Hi. eapply lookup_weaken; [exact Hi|].
  apply prepare_chat_history_frame.
Qed.
End store_calls.

(** ** The default message class *)

Section client_default.
Implicit Types (self : Client.Instance) (c : Client.PyClass).

Lemma resolve_app name (derived rest : list Client.PyClass) :
  Forall (λ c, Client.methods c !! name = None) derived →
  Client.resolve name (derived ++ rest)%list = Client.resolve name rest.
Proof.
  induction 1 as [|c derived Hc _ IH]; simpl; [done|]. by rewrite Hc.
Qed.

(** C9: on an instance of a class below [ChatCompletionClientBase] where
    no class before it in the resolution order defines
    [get_chat_message_content_class], the call returns
    [ChatMessageContent]. *)
Theorem default_message_class self (derived bases : list Client.PyClass) :
  Client.mro self = (derived ++ Client.ChatCompletionClientBase :: bases)%list →
  Forall (λ c, Client.methods c !! "get_chat_message_content_class" = None)
         derived →
  Client.call_get_chat_message_content_class self
  = Ok Client.ChatMessageContent.
Proof.
  intros Hmro Hnone. unfold Client.call_get_chat_message_content_class.
  rewrite Hmro, resolve_app by done. reflexivity.
Qed.

(** A connector that inherits the method. *)
Lemma default_message_class_witness :
  Client.call_get_chat_message_content_class Client.plain_client
  = Ok Client.ChatMessageContent.
Proof.
  apply (default_message_class Client.plain_client
           [Client.PlainConnector] [Client.AIServiceClientBase]).
  - reflexivity.
  - repeat constructor.
Defined.

(** A connector that overrides it gets its own answer. *)
Lemma overriding_message_class :
  Client.call_get_chat_message_content_class Client.enriched_client
  = Ok (Client.Subclass "OpenAIChatMessageContent").
Proof. by vm_compute. Qed.
End client_default.

(** ** Further properties of the method *)

Section more_records.
Implicit Types (message : ChatMessageContent) (chat_history : ChatHistory)
  (k : string) (v : Value) (r : gmap string Value)
  (rs : list (gmap string Value)).

(** A dumped field: absent when its value is [None], else its value. *)
Lemma model_dump_field ex message k v :
  (k, v) ∈ model_fields message → k ∉ ex →
  model_dump true ex message !! k = if is_None v then None else Some v.
Proof.
  intros Hin Hex. destruct (is_None v) eqn:Hv.
  - apply eq_None_not_Some. intros [v' Hv'].
    apply model_dump_lookup_Some in Hv' as (Hin' & _ & Hn).
    pose proof (model_fields_NoDup message) as Hnd.
    apply (elem_of_list_to_map_1 (M := gmap string)) in Hin, Hin'; [|done..].
    assert (v' = v) as -> by congruence. destruct v; naive_solver.
  - apply model_dump_lookup_Some. split_and!; [done..|].
    intros _ ->. discriminate.
Qed.

Lemma ill_keyed_spec message :
  well_keyed message = false ↔
    (role message = TOOL ∧
     ∃ md, metadata message = Some md ∧ is_Some (md !! "tool_call_id") ∧
           md !! "function_name" = None).
Proof.
  unfold well_keyed. split.
  - destruct (role message); try done.
    destruct (metadata message) as [md|]; [|done].
    rewrite !py_contains_lookup.
    destruct (md !! "tool_call_id") eqn:Htc; [|done].
    destruct (md !! "function_name") eqn:Hfn; [done|]. intros _.
    split; [done|]. exists md. rewrite Htc. eauto.
  - intros (-> & md & -> & [tc Htc] & Hfn).
    by rewrite !py_contains_lookup, Htc, Hfn.
Qed.

Lemma forallb_false_elem {A} (f : A → bool) (xs : list A) :
  forallb f xs = false → ∃ x, x ∈ xs ∧ f x = false.
Proof.
  induction xs as [|x xs IH]; simpl; [done|].
  destruct (f x) eqn:Hx; simpl.
  - intros (y & Hy & Hfy)%IH. exists y. split; [by right|done].
  - intros _. exists x. split; [by left|done].
Qed.

(** The only way the method fails: it raises exactly when the history
    holds a tool message whose metadata has [tool_call_id] and lacks
    [function_name], and the exception is [KeyError('function_name')]. *)
Theorem raises_exactly_on_ill_keyed chat_history e :
  _prepare_chat_history_for_request chat_history = Raise e ↔
    (e = KeyError "function_name" ∧
     ∃ m md, m ∈ messages chat_history ∧ role m = TOOL ∧
             metadata m = Some md ∧ is_Some (md !! "tool_call_id") ∧
             md !! "function_name" = None).
Proof.
  split.
  - intros He. split; [by eapply prepare_chat_history_Raise|].
    destruct (forallb well_keyed (messages chat_history)) eqn:Hall.
    { apply prepare_chat_history_returns in Hall as [rs Hrs]. congruence. }
    apply forallb_false_elem in Hall as (m & Hm & Hk). exists m.
    apply ill_keyed_spec in Hk as (Hr & md & ?).
    exists md. naive_solver.
  - intros (-> & m & md & Hm & Hr & Hmd & Htc & Hfn).
    destruct (_prepare_chat_history_for_request chat_history) as [rs|e] eqn:Hrun.
    + assert (Hall : forallb well_keyed (messages chat_history) = true)
        by (apply prepare_chat_history_returns; eauto).
      rewrite forallb_forall in Hall.
      apply list_elem_of_In, Hall in Hm.
      assert (well_keyed m = false) by (apply ill_keyed_spec; eauto).
      congruence.
    + f_equal. by eapply prepare_chat_history_Raise.
Qed.

Lemma mapM_result_app (msgs1 msgs2 : list ChatMessageContent) :
  mapM prepare_message (msgs1 ++ msgs2) =
    rs1 ← mapM prepare_message msgs1;
    rs2 ← mapM prepare_message msgs2;
    Ok (rs1 ++ rs2)%list.
Proof.
  induction msgs1 as [|m msgs1 IH]; simpl.
  - by destruct (mapM prepare_message msgs2).
  - destruct (prepare_message m) as [r|e]; simpl; [|done].
    rewrite IH. destruct (mapM prepare_message msgs1) as [rs1|e]; simpl; [|done].
    by destruct (mapM prepare_message msgs2).
Qed.

Lemma prepare_chat_history_mapM chat_history :
  _prepare_chat_history_for_request chat_history
  = mapM prepare_message (messages chat_history).
Proof.
  unfold _prepare_chat_history_for_request. rewrite prepare_loop_mapM.
  by destruct (mapM prepare_message (messages chat_history)).
Qed.

(** Histories compose: preparing a concatenation is preparing the two
    parts in turn and concatenating the records; an exception of the first
    part comes first. *)
Theorem prepare_chat_history_app (msgs1 msgs2 : list ChatMessageContent) :
  _prepare_chat_history_for_request {| messages := msgs1 ++ msgs2 |} =
    rs1 ← _prepare_chat_history_for_request {| messages := msgs1 |};
    rs2 ← _prepare_chat_history_for_request {| messages := msgs2 |};
    Ok (rs1 ++ rs2)%list.
Proof. rewrite !prepare_chat_history_mapM. apply mapM_result_app. Qed.

Lemma prepare_message_encoding message r :
  prepare_message message = Ok r → r !! "encoding" = None.
Proof.
  destruct (decide (role message = TOOL)) as [Hr|Hr].
  - rewrite prepare_message_tool by done. cbv zeta.
    assert (model_dump true ["encoding"] message !! "encoding" = None)
      by (apply model_dump_excluded; set_solver).
    repeat case_match; intros [= <-]; try done.
    by rewrite lookup_delete_ne, !lookup_insert_ne.
  - rewrite prepare_message_other by done. intros [= <-].
    apply model_dump_excluded. set_solver.
Qed.

(** No record of any role has an [encoding] key, whatever the message
    holds there. *)
Theorem encoding_never_sent chat_history rs r :
  _prepare_chat_history_for_request chat_history = Ok rs →
  r ∈ rs →
  r !! "encoding" = None.
Proof.
  intros Hrs Hr. apply list_elem_of_lookup in Hr as [i Hi].
  apply prepare_chat_history_Ok in Hrs.
  destruct (Forall2_lookup_r _ _ _ _ _ Hrs Hi) as (m & _ & Hp).
  by eapply prepare_message_encoding.
Qed.

Lemma encoding_never_sent_witness :
  (delete "metadata"
     (<["name" := VStr "add"]>
        (<["tool_call_id" := VStr "call_1"]>
           (model_dump true ["encoding"] tool_full)))) !! "encoding" = None.
Proof.
  apply (encoding_never_sent
           {| messages := [assistant_full; tool_full] |}
           [ model_dump true
               ["metadata"; "encoding"; "ai_model_id"; "inner_content";
                "choice_index"] assistant_full;
             delete "metadata"
               (<["name" := VStr "add"]>
                  (<["tool_call_id" := VStr "call_1"]>
                     (model_dump true ["encoding"] tool_full))) ]).
  - vm_compute. reflexivity.
  - right. left.
Defined.
(** [exclude_none] guards the fields of a message, not what the promotion
    copies: a [None] in a record sits under [tool_call_id] or [name], in
    the record of a tool message whose metadata holds [None] under
    [tool_call_id] or [function_name]. *)
Theorem none_only_promoted chat_history rs i r k :
  _prepare_chat_history_for_request chat_history = Ok rs →
  rs !! i = Some r →
  r !! k = Some VNone →
  ∃ m md,
    messages chat_history !! i = Some m ∧ role m = TOOL ∧
    metadata m = Some md ∧ is_Some (md !! "tool_call_id") ∧
    ((k = "tool_call_id" ∧ md !! "tool_call_id" = Some VNone) ∨
     (k = "name" ∧ md !! "function_name" = Some VNone)).
Proof.
  intros Hrs Hi Hk. apply prepare_chat_history_Ok in Hrs.
  destruct (Forall2_lookup_r _ _ _ _ _ Hrs Hi) as (m & Hm & Hp).
  exists m. destruct (decide (role m = TOOL)) as [Hr|Hr].
  2:{ rewrite prepare_message_other in Hp by done. injection Hp as <-.
      by apply model_dump_no_None in Hk. }
  rewrite prepare_message_tool in Hp by done. cbv zeta in Hp.
  destruct (metadata m) as [md|] eqn:Hmd.
  2:{ injection Hp as <-. by apply model_dump_no_None in Hk. }
  destruct (md !! "tool_call_id") as [tc|] eqn:Htc.
  2:{ injection Hp as <-. by apply model_dump_no_None in Hk. }
  destruct (md !! "function_name") as [fn|] eqn:Hfn; [|done].
  injection Hp as <-. exists md. split_and!; [done..|eauto|].
  destruct (decide (k = "metadata")) as [->|Hk1].
  { by rewrite lookup_delete_eq in Hk. }
  rewrite lookup_delete_ne in Hk by done.
  destruct (decide (k = "name")) as [->|Hk2].
  { rewrite lookup_insert_eq in Hk. right. naive_solver. }
  rewrite lookup_insert_ne in Hk by done.
  destruct (decide (k = "tool_call_id")) as [->|Hk3].
  { rewrite lookup_insert_eq in Hk. left. naive_solver. }
  rewrite lookup_insert_ne in Hk by done.
  by apply model_dump_no_None in Hk.
Qed.

Lemma none_only_promoted_witness :
  ∃ m md,
    [plain USER "2+2?"; tool_none_call_id] !! 1 = Some m ∧ role m = TOOL ∧
    metadata m = Some md ∧ is_Some (md !! "tool_call_id") ∧
    (("tool_call_id" = "tool_call_id" ∧ md !! "tool_call_id" = Some VNone) ∨
     ("tool_call_id" = "name" ∧ md !! "function_name" = Some VNone)).
Proof.
  apply (none_only_promoted
           {| messages := [plain USER "2+2?"; tool_none_call_id] |}
           [ {[ "role" := VRole USER; "content" := VStr "2+2?" ]};
             {[ "role" := VRole TOOL; "content" := VStr "42";
                "tool_call_id" := VNone; "name" := VStr "add" ]} ]
           1
           {[ "role" := VRole TOOL; "content" := VStr "42";
              "tool_call_id" := VNone; "name" := VStr "add" ]}
           "tool_call_id"); vm_compute; reflexivity.
Defined.

(** The record of a tool message keeps [ai_model_id], [inner_content] and
    [choice_index] whenever they are set, next to [role] and [content]:
    only [encoding] is excluded on that branch. *)
Theorem tool_record_keeps_model_fields message r :
  role message = TOOL →
  prepare_message message = Ok r →
  r !! "role" = Some (VRole TOOL) ∧
  r !! "content" = VStr <$> content message ∧
  r !! "ai_model_id" = VStr <$> ai_model_id message ∧
  r !! "choice_index" = VInt <$> choice_index message ∧
  r !! "inner_content"
  = (if is_None (inner_content message) then None
     else Some (inner_content message)).
Proof.
  intros Hr Hp.
  assert (Hkeep : ∀ k, k ∉ ["metadata"; "name"; "tool_call_id"] →
            r !! k = model_dump true ["encoding"] message !! k).
  { intros k Hk. rewrite prepare_message_tool in Hp by done. cbv zeta in Hp.
    repeat case_match; simplify_eq; try done.
    rewrite lookup_delete_ne, !lookup_insert_ne by set_solver. done. }
  rewrite !Hkeep by set_solver.
  assert (Hopt : ∀ {A} (f : A → Value) (o : option A),
            (∀ a, is_None (f a) = false) →
            (if is_None (of_option f o) then None else Some (of_option f o))
            = f <$> o).
  { intros A f [a|] Hf; simpl; [by rewrite Hf|done]. }
  split_and!.
  - rewrite <- Hr. apply model_dump_role. set_solver.
  - apply model_dump_content. set_solver.
  - rewrite (model_dump_field _ _ "ai_model_id"
               (of_option VStr (ai_model_id message)));
      [by apply Hopt|unfold model_fields; set_solver|set_solver].
  - rewrite (model_dump_field _ _ "choice_index"
               (of_option VInt (choice_index message)));
      [by apply Hopt|unfold model_fields; set_solver|set_solver].
  - apply model_dump_field; [unfold model_fields; set_solver|set_solver].
Qed.

Lemma tool_record_keeps_model_fields_witness :
  let r := delete "metadata"
             (<["name" := VStr "add"]>
                (<["tool_call_id" := VStr "call_1"]>
                   (model_dump true ["encoding"] tool_full))) in
  r !! "role" = Some (VRole TOOL) ∧
  r !! "content" = VStr <$> content tool_full ∧
  r !! "ai_model_id" = VStr <$> ai_model_id tool_full ∧
  r !! "choice_index" = VInt <$> choice_index tool_full ∧
  r !! "inner_content"
  = (if is_None (inner_content tool_full) then None
     else Some (inner_content tool_full)).
Proof.
  apply (tool_record_keeps_model_fields tool_full); vm_compute; reflexivity.
Defined.

Lemma model_dump_with_metadata en ex message md1 md2 k :
  k ≠ "metadata" →
  model_dump en ex (with_metadata message md1) !! k
  = model_dump en ex (with_metadata message md2) !! k.
Proof.
  intros Hk. apply option_eq. intros v. rewrite !model_dump_lookup_Some.
  unfold model_fields, with_metadata. simpl.
  rewrite !elem_of_cons. naive_solver.
Qed.

(** On promotion the metadata is dropped whole: two tool messages that
    differ only in metadata, with the same [tool_call_id] and the same
    [function_name] entry, have the same outcome. *)
Theorem promotion_ignores_other_metadata message md1 md2 :
  role message = TOOL →
  is_Some (md1 !! "tool_call_id") →
  md1 !! "tool_call_id" = md2 !! "tool_call_id" →
  md1 !! "function_name" = md2 !! "function_name" →
  prepare_message (with_metadata message (Some md1))
  = prepare_message (with_metadata message (Some md2)).
Proof.
  intros Hr [tc Htc] Htc2 Hfn.
  rewrite !prepare_message_tool by done. cbv zeta. simpl.
  rewrite <- Htc2, <- Hfn, Htc.
  destruct (md1 !! "function_name") as [fn|]; [|done].
  f_equal. apply map_eq. intros k.
  destruct (decide (k = "metadata")) as [->|Hk1].
  { by rewrite !lookup_delete_eq. }
  rewrite !lookup_delete_ne by done.
  destruct (decide (k = "name")) as [->|Hk2].
  { by rewrite !lookup_insert_eq. }
  rewrite !(lookup_insert_ne _ "name") by done.
  destruct (decide (k = "tool_call_id")) as [->|Hk3].
  { by rewrite !lookup_insert_eq. }
  rewrite !(lookup_insert_ne _ "tool_call_id") by done.
  by apply model_dump_with_metadata.
Qed.

Lemma promotion_ignores_other_metadata_witness :
  prepare_message
    (with_metadata tool_full
       (Some {[ "tool_call_id" := VStr "call_1"; "function_name" := VStr "add";
                "latency" := VInt 12 ]}))
  = prepare_message
      (with_metadata tool_full
         (Some {[ "tool_call_id" := VStr "call_1";
                  "function_name" := VStr "add" ]})).
Proof.
  apply (promotion_ignores_other_metadata tool_full).
  - reflexivity.
  - exists (VStr "call_1"). vm_compute. reflexivity.
  - vm_compute. reflexivity.
  - vm_compute. reflexivity.
Defined.

End more_records.

(** ** Further properties of calls on a store *)

Section more_store.
Implicit Types (σ : Store.store) (l lp : Store.loc).

(** The call on [raising_store] raises, and the metadata dictionary of the
    offending message is as it was. *)
Lemma frame_on_raise_witness :
  (Store._prepare_chat_history_for_request 1%positive raising_store).1
  = Raise (KeyError "function_name") ∧
  (Store._prepare_chat_history_for_request 1%positive raising_store).2
    !! 4%positive
  = Some (Store.ODict {[ "tool_call_id" := VStr "call_1" ]}).
Proof.
  split; [by vm_compute|].
  apply (frame_on_raise raising_store 1%positive 4%positive
           (Store.ODict {[ "tool_call_id" := VStr "call_1" ]})).
  reflexivity.
Defined.

Lemma prepare_loop_new σ0 items msgs : ∀ σ lp ds σ',
  σ0 ⊆ σ → σ0 !! lp = None →
  Forall2 (λ l msg, Store.read_message σ0 l = Some msg) items msgs →
  σ !! lp = Some (Store.OList ds) →
  NoDup ds →
  Forall (λ d, σ0 !! d = None ∧ ∃ dict, σ !! d = Some (Store.ODump dict)) ds →
  Store.prepare_loop items lp σ = (Ok (), σ') →
  ∃ ds', σ' !! lp = Some (Store.OList ds') ∧
         length ds' = length ds + length items ∧
         NoDup ds' ∧
         Forall (λ d, σ0 !! d = None ∧
                      ∃ dict, σ' !! d = Some (Store.ODump dict)) ds'.
Proof.
  intros σ lp ds σ' Hσ Hlp Hall. revert σ ds Hσ.
  induction Hall as [|l msg items msgs Hmsg Hall IH];
    intros σ ds Hσ Hds Hnd Hnew; simpl.
  { rewrite run_ret. intros [= <-]. exists ds. split_and!; [done|lia|done..]. }
  pose proof (prepare_message_refines σ l msg
                (read_message_mono _ _ _ _ Hσ Hmsg)) as Hbody.
  destruct (preserves_prepare_message_at σ l) as [Hσ1 Hfresh].
  rewrite run_bind.
  destruct (prepare_message msg) as [r|e].
  2:{ destruct Hbody as [σ1 ->]. done. }
  destruct Hbody as (dump & σ1 & Hrun & (dict & Hdump & _)).
  rewrite Hrun in Hσ1, Hfresh |- *. simpl in Hσ1.
  specialize (Hfresh dump eq_refl). apply not_elem_of_dom in Hfresh.
  pose proof (lookup_weaken _ _ _ _ Hds Hσ1) as Hds1.
  unfold Store.list_append.
  rewrite run_bind, run_bind, (run_load_list _ _ _ Hds1). simpl.
  intros Hrest.
  destruct (IH (<[lp := Store.OList (ds ++ [dump])]> σ1) (ds ++ [dump])%list)
    as (ds' & Hds' & Hlen & Hnd' & Hnew'); try done.
  - apply map_subseteq_spec. intros l' o' Hl'.
    rewrite lookup_insert_ne by congruence.
    eapply lookup_weaken; [|exact Hσ1]. by eapply lookup_weaken.
  - apply lookup_insert_eq.
  - apply NoDup_app. split_and!; [done| |apply NoDup_singleton].
    intros d Hd ->%list_elem_of_singleton.
    rewrite Forall_forall in Hnew. destruct (Hnew _ Hd) as [_ [? ?]].
    congruence.
  - apply Forall_app. split.
    + eapply Forall_impl; [exact Hnew|]. intros d [Hd0 [dd Hdd]].
      split; [done|]. exists dd.
      rewrite lookup_insert_ne by congruence. by eapply lookup_weaken.
    + apply Forall_singleton. split.
      * destruct (σ0 !! dump) eqn:H0; [|done].
        pose proof (lookup_weaken _ _ _ _ H0 Hσ). congruence.
      * exists dict. by rewrite lookup_insert_ne by congruence.
  - exists ds'. split_and!; [done| |done..].
    rewrite Hlen, length_app. simpl. lia.
Qed.

(** What a call returns is new: on a readable history, the list it
    returns and the dictionaries in it, one per message, are objects that
    did not exist before the call, and no dictionary occurs twice; a caller
    that updates one of them touches neither the history nor another
    record. *)
Theorem records_are_new_objects σ l h lp σ' :
  Store.read_history σ l = Some h →
  Store._prepare_chat_history_for_request l σ = (Ok lp, σ') →
  σ !! lp = None ∧
  ∃ ds, σ' !! lp = Some (Store.OList ds) ∧
        length ds = length (messages h) ∧
        NoDup ds ∧
        Forall (λ d, σ !! d = None ∧
                     ∃ dict, σ' !! d = Some (Store.ODump dict)) ds.
Proof.
  unfold Store.read_history. intros Hh.
  destruct (σ !! l) as [[lm| | | |]|] eqn:Hl; try done.
  destruct (σ !! lm) as [[|items| | |]|] eqn:Hlm; try done.
  destruct (mapM (Store.read_message σ) items) as [msgs|] eqn:Hms; [|done].
  simpl in Hh. injection Hh as <-. apply mapM_Some in Hms.
  destruct (alloc_fresh σ (Store.OList [])) as (lp0 & Hal & Hlp).
  assert (Hσ : σ ⊆ <[lp0 := Store.OList []]> σ) by by apply insert_subseteq.
  unfold Store._prepare_chat_history_for_request.
  rewrite run_bind, Hal, run_bind, run_bind.
  rewrite (run_load_history _ _ lm) by (by eapply lookup_weaken).
  rewrite (run_load_list _ _ items) by (by eapply lookup_weaken).
  rewrite run_bind.
  destruct (Store.prepare_loop items lp0 (<[lp0 := Store.OList []]> σ))
    as [[[]|e] σ1] eqn:Hloop; [|done].
  rewrite run_ret. intros [= <- <-]. split; [done|].
  destruct (prepare_loop_new σ items msgs (<[lp0 := Store.OList []]> σ) lp0 []
              σ1 Hσ Hlp Hms)
    as (ds & Hds & Hlen & Hnd & Hnew); try done.
  - apply lookup_insert_eq.
  - apply NoDup_nil_2.
  - exists ds. split_and!; try done. simpl in Hlen. rewrite Hlen. simpl.
    by eapply Forall2_length.
Qed.

Lemma records_are_new_objects_witness :
  Store.example_store !! 6%positive = None ∧
  ∃ ds,
    (Store._prepare_chat_history_for_request 1%positive Store.example_store).2
      !! 6%positive = Some (Store.OList ds) ∧
    length ds = length (messages {| messages := [plain USER "2+2?"; tool_42] |}) ∧
    NoDup ds ∧
    Forall (λ d, Store.example_store !! d = None ∧
                 ∃ dict,
                   (Store._prepare_chat_history_for_request 1%positive
                      Store.example_store).2 !! d
                   = Some (Store.ODump dict)) ds.
Proof.
  apply (records_are_new_objects Store.example_store 1%positive
           {| messages := [plain USER "2+2?"; tool_42] |} 6%positive
           (Store._prepare_chat_history_for_request 1%positive
              Store.example_store).2);
    vm_compute; reflexivity.
Defined.
End more_store.
